(** * SuperMarioBrosEnv: memory decoding, start-screen skipping, reward and
      termination of [gym_super_mario_bros/smb_env.py]

    The development follows the layout of the Python module: the module
    constants, the read-only memory decoders (the properties of the
    "Memory access" part), then the stateful parts (RAM hacks, reward
    function, nes-py callbacks, [step]) written in a small state-and-error
    monad over the environment object. *)

From Stdlib Require Import ZArith NArith List String Ascii Bool Lia.
From Stdlib Require Import DecimalString DecimalN.
Import ListNotations.

Local Open Scope Z_scope.

(** ** Bytes, RAM and the two Python builtins used by the decoders *)

(** A [numpy.uint8]: a natural number; RAM cells hold values below 256. *)
Definition byte := N.

Bind Scope N_scope with byte.

(** The NES work RAM, [self.ram]: a fixed array of 0x800 bytes.  Every
    address the module indexes is a literal below 0x800, so indexing is
    total; the array bound only matters for slices, which Python clips. *)
Definition RAM := N -> byte.

Definition RAM_SIZE : N := 0x800.

(** [ram[a] = v] *)
Definition ram_set (ram : RAM) (a : N) (v : byte) : RAM :=
  fun a' => if N.eqb a' a then v else ram a'.

(** Conversion of a Python integer stored into a uint8 cell. *)
Definition uint8 (z : Z) : byte := Z.to_N (z mod 256).

(** [ram[start : start + count]], clipped at the end of the array. *)
Fixpoint ram_slice (ram : RAM) (start : N) (count : nat) : list byte :=
  match count with
  | O => []
  | S k =>
      if N.ltb start RAM_SIZE
      then ram start :: ram_slice ram (N.succ start) k
      else []
  end.

(** [str(b)] for an unsigned byte: its decimal numeral. *)
Definition str (b : byte) : string := NilZero.string_of_uint (N.to_uint b).

(** ["".join(l)] *)
Definition join (l : list string) : string :=
  fold_right String.append EmptyString l.

Definition digit_of_ascii (c : ascii) : option Z :=
  let n := N_of_ascii c in
  if (N.leb 48 n && N.leb n 57)%bool then Some (Z.of_N (n - 48)) else None.

Fixpoint int_acc (acc : Z) (s : string) : option Z :=
  match s with
  | EmptyString => Some acc
  | String c s' =>
      match digit_of_ascii c with
      | Some d => int_acc (10 * acc + d) s'
      | None => None
      end
  end.

(** [int(s)] on the strings this module builds (decimal digits only):
    the value of the numeral, leading zeros allowed; [None] stands for
    the [ValueError] raised on the empty string or on another
    character.  CPython also refuses numerals of more than 4300 digits;
    the statements below stay within that length. *)
Definition int (s : string) : option Z :=
  match s with
  | EmptyString => None
  | _ => int_acc 0 s
  end.

(** ** Module constants *)

(** a set of state values indicating that Mario is "busy" *)
Definition _BUSY_STATES : list byte :=
  [0x00; 0x01; 0x02; 0x03; 0x04; 0x05; 0x07]%N.

(** RAM addresses for enemy types on the screen *)
Definition _ENEMY_TYPE_ADDRESSES : list N :=
  [0x0016; 0x0017; 0x0018; 0x0019; 0x001A]%N.

(** Bowser = 0x2D, Flagpole = 0x31 *)
Definition _STAGE_OVER_ENEMIES : list byte := [0x2D; 0x31]%N.

(** [x in l] for bytes. *)
Definition byte_in (x : byte) (l : list byte) : bool :=
  existsb (N.eqb x) l.

(** [_STATUS_MAP]: a defaultdict with default "fireball". *)
Definition _STATUS_MAP (b : byte) : string :=
  if N.eqb b 0 then "small"
  else if N.eqb b 1 then "tall"
  else "fireball".

(** The class attribute [reward_range]: the legal range of rewards for
    each step. *)
Definition reward_range : Z * Z := (-15, 15).

(** ** Memory access: the read-only properties *)

Module Decoder.

Section Snapshot.

Variable ram : RAM.

(** [address] and [length] are non-negative, as in every call the
    module makes. *)
Definition _read_mem_range (address : N) (length : nat) : option Z :=
  int (join (map str (ram_slice ram address length))).

Definition _world : Z := Z.of_N (ram 0x075F%N) + 1.

Definition _stage : Z := Z.of_N (ram 0x075C%N) + 1.

Definition _score : option Z := _read_mem_range 0x07DE%N 6.

Definition _time : option Z := _read_mem_range 0x07F8%N 3.

Definition _coins : option Z := _read_mem_range 0x07ED%N 2.

Definition _life : Z := Z.of_N (ram 0x075A%N).

Definition _x_position : Z :=
  Z.of_N (ram 0x6D%N) * 0x100 + Z.of_N (ram 0x86%N).

Definition _y_pixel : Z := Z.of_N (ram 0x03B8%N).

Definition _y_viewport : byte := ram 0x00B5%N.

Definition _y_position : Z :=
  if N.ltb _y_viewport 1 then 255 + (255 - _y_pixel)
  else if N.ltb 1 _y_viewport then - _y_pixel - 1
  else 255 - _y_pixel.

Definition _player_status : string := _STATUS_MAP (ram 0x0756%N).

Definition _player_state : byte := ram 0x000E%N.

Definition _is_dying : bool :=
  N.eqb _player_state 0x0B || N.ltb 1 _y_viewport.

Definition _is_dead : bool := N.eqb _player_state 0x06.

Definition _is_game_over : bool := Z.eqb _life 0xFF.

Definition _is_busy : bool := byte_in _player_state _BUSY_STATES.

Definition _is_world_over : bool := N.eqb (ram 0x0770%N) 2.

(** The [for] loop over the enemy slots, returning from inside. *)
Fixpoint _is_stage_over_from (addresses : list N) : bool :=
  match addresses with
  | [] => false
  | address :: rest =>
      if byte_in (ram address) _STAGE_OVER_ENEMIES
      then N.eqb (ram 0x001D%N) 3
      else _is_stage_over_from rest
  end.

Definition _is_stage_over : bool :=
  _is_stage_over_from _ENEMY_TYPE_ADDRESSES.

Definition _flag_get : bool := _is_world_over || _is_stage_over.

End Snapshot.

End Decoder.

(** ** The emulator base class and the environment object *)

(** What [nes_py.NESEnv] supplies to this module: the RAM view and the
    frame-advance primitive.  [console] is the rest of the machine (CPU,
    PPU, cartridge); one frame maps the controller byte, the RAM and the
    console state to the next RAM and console state. *)
Class NESEnv := {
  console : Type;
  emulate : byte -> RAM * console -> RAM * console
}.

Section Environment.

Context {nes_py : NESEnv}.

(** The attributes of a [SuperMarioBrosEnv] instance. *)
Record SuperMarioBrosEnv := mkEnv {
  ram : RAM;
  machine : console;
  _target_world : option Z;
  _target_stage : option Z;
  _target_area : option Z;
  _time_last : Z;
  last_frame_x_position : Z;
  last_frame_y_position : Z
}.

Definition set_ram (r : RAM) (self : SuperMarioBrosEnv) :=
  mkEnv r (machine self) (_target_world self) (_target_stage self)
    (_target_area self) (_time_last self) (last_frame_x_position self)
    (last_frame_y_position self).

Definition set_machine (c : console) (self : SuperMarioBrosEnv) :=
  mkEnv (ram self) c (_target_world self) (_target_stage self)
    (_target_area self) (_time_last self) (last_frame_x_position self)
    (last_frame_y_position self).

Definition set_time_last (t : Z) (self : SuperMarioBrosEnv) :=
  mkEnv (ram self) (machine self) (_target_world self) (_target_stage self)
    (_target_area self) t (last_frame_x_position self)
    (last_frame_y_position self).

Definition set_last_frame_x_position (x : Z) (self : SuperMarioBrosEnv) :=
  mkEnv (ram self) (machine self) (_target_world self) (_target_stage self)
    (_target_area self) (_time_last self) x (last_frame_y_position self).

Definition set_last_frame_y_position (y : Z) (self : SuperMarioBrosEnv) :=
  mkEnv (ram self) (machine self) (_target_world self) (_target_stage self)
    (_target_area self) (_time_last self) (last_frame_x_position self) y.

(** *** Methods as computations on [self]

    A method either returns a value and the updated object, raises the
    [ValueError] of [int], or has not returned within the given number of
    loop iterations. *)
Inductive result (A : Type) : Type :=
| Ok (a : A) (self : SuperMarioBrosEnv)
| ValueError
| Unfinished.

Arguments Ok {A} a self.
Arguments ValueError {A}.
Arguments Unfinished {A}.

Definition M (A : Type) : Type := SuperMarioBrosEnv -> result A.

Definition ret {A} (a : A) : M A := fun self => Ok a self.

Definition bind {A B} (m : M A) (k : A -> M B) : M B :=
  fun self =>
    match m self with
    | Ok a self' => k a self'
    | ValueError => ValueError
    | Unfinished => Unfinished
    end.

Notation "x <- m ;; k" := (bind m (fun x => k))
  (at level 61, m at next level, right associativity).
Notation "m ;; k" := (bind m (fun _ => k))
  (at level 61, right associativity).

(** Read an attribute or a total decoder. *)
Definition gets {A} (f : SuperMarioBrosEnv -> A) : M A :=
  fun self => Ok (f self) self.

Definition modify (f : SuperMarioBrosEnv -> SuperMarioBrosEnv) : M unit :=
  fun self => Ok tt (f self).

Definition read {A} (f : RAM -> A) : M A := gets (fun self => f (ram self)).

(** Read one of the counters built with [int]. *)
Definition read_int (f : RAM -> option Z) : M Z :=
  fun self =>
    match f (ram self) with
    | Some v => Ok v self
    | None => ValueError
    end.

(** [self.ram[a] = v] *)
Definition poke (a : N) (v : byte) : M unit :=
  modify (fun self => set_ram (ram_set (ram self) a v) self).

(** [while cond: body], unrolled at most [fuel] times. *)
Fixpoint while (fuel : nat) (cond : M bool) (body : M unit) : M unit :=
  match fuel with
  | O => fun _ => Unfinished
  | S fuel' =>
      b <- cond ;;
      if b then body ;; while fuel' cond body else ret tt
  end.

(** [NESEnv._frame_advance(action)] *)
Definition _frame_advance (action : byte) : M unit :=
  modify (fun self =>
    let '(r, c) := emulate action (ram self, machine self) in
    set_machine c (set_ram r self)).

Definition is_some {A} (o : option A) : bool :=
  match o with Some _ => true | None => false end.

Definition is_single_stage_env : M bool :=
  gets (fun self => is_some (_target_world self) && is_some (_target_area self)).

(** *** RAM hacks *)

(** The target was validated by [decode_target], so [uint8] is the
    identity on the values stored here. *)
Definition _write_stage : M unit :=
  tw <- gets _target_world ;;
  ts <- gets _target_stage ;;
  ta <- gets _target_area ;;
  match tw, ts, ta with
  | Some w, Some s, Some a =>
      poke 0x075F (uint8 (w - 1)) ;;
      poke 0x075C (uint8 (s - 1)) ;;
      poke 0x0760 (uint8 (a - 1))
  | _, _, _ => ret tt
  end.

Definition _runout_prelevel_timer : M unit := poke 0x07A0 0%N.

Definition _skip_change_area : M unit :=
  change_area_timer <- read (fun r => r 0x06DE%N) ;;
  if N.ltb 1 change_area_timer && N.ltb change_area_timer 255
  then poke 0x06DE 1%N
  else ret tt.

Definition _skip_occupied_states (fuel : nat) : M unit :=
  while fuel
    (busy <- read Decoder._is_busy ;;
     if busy then ret true else read Decoder._is_world_over)
    (_runout_prelevel_timer ;;
     _frame_advance 0%N).

(** The first loop of [_skip_start_screen]: press start until the game
    starts. *)
Definition press_start_until_started (fuel : nat) : M unit :=
  while fuel
    (t <- read_int Decoder._time ;; ret (Z.eqb t 0))
    (_frame_advance 8%N ;;
     single <- is_single_stage_env ;;
     (if single then _write_stage else ret tt) ;;
     _frame_advance 0%N ;;
     _runout_prelevel_timer).

(** The second loop of [_skip_start_screen]: idle after the start
    screen. *)
Definition idle_after_start (fuel : nat) : M unit :=
  while fuel
    (t <- read_int Decoder._time ;;
     last <- gets _time_last ;;
     ret (Z.geb t last))
    (t <- read_int Decoder._time ;;
     modify (set_time_last t) ;;
     _frame_advance 8%N ;;
     _frame_advance 0%N).

Definition _skip_start_screen (fuel : nat) : M unit :=
  _frame_advance 8%N ;;
  _frame_advance 0%N ;;
  press_start_until_started fuel ;;
  t <- read_int Decoder._time ;;
  modify (set_time_last t) ;;
  idle_after_start fuel.

Definition _skip_end_of_world (fuel : nat) : M unit :=
  over <- read Decoder._is_world_over ;;
  if over then
    time <- read_int Decoder._time ;;
    while fuel
      (t <- read_int Decoder._time ;; ret (Z.eqb t time))
      (_frame_advance 0%N)
  else ret tt.

Definition _kill_mario : M unit :=
  poke 0x000E 0x06%N ;;
  _frame_advance 0%N.

(** *** Reward function *)

Definition _x_reward : M Z :=
  x <- read Decoder._x_position ;;
  last <- gets last_frame_x_position ;;
  let _reward := x - last in
  if Z.ltb _reward (-5) || Z.gtb _reward 5 then ret 0 else ret _reward.

Definition _time_penalty : M Z :=
  t <- read_int Decoder._time ;;
  last <- gets _time_last ;;
  let _reward := t - last in
  t' <- read_int Decoder._time ;;
  modify (set_time_last t') ;;
  if Z.gtb _reward 0 then ret 0 else ret _reward.

Definition _death_penalty : M Z :=
  dying <- read Decoder._is_dying ;;
  dead <- (if dying then ret true else read Decoder._is_dead) ;;
  if dead then ret (-25) else ret 0.

(** *** nes-py API calls *)

Definition _will_reset : M unit := modify (set_time_last 0).

Definition _did_reset : M unit :=
  t <- read_int Decoder._time ;;
  modify (set_time_last t) ;;
  x <- read Decoder._x_position ;;
  modify (set_last_frame_x_position x) ;;
  y <- read Decoder._y_position ;;
  modify (set_last_frame_y_position y).

Definition _did_step (fuel : nat) (will_reset : bool) : M unit :=
  if will_reset then ret tt
  else
    dying <- read Decoder._is_dying ;;
    (if dying then _kill_mario else ret tt) ;;
    single <- is_single_stage_env ;;
    (if negb single then _skip_end_of_world fuel else ret tt) ;;
    _skip_change_area ;;
    _skip_occupied_states fuel.

Definition _get_reward : M Z :=
  x <- _x_reward ;;
  t <- _time_penalty ;;
  d <- _death_penalty ;;
  ret (x + t + d).

Definition _get_terminated : M bool :=
  single <- is_single_stage_env ;;
  if single then
    dying <- read Decoder._is_dying ;;
    if dying then ret true
    else
      dead <- read Decoder._is_dead ;;
      if dead then ret true else read Decoder._flag_get
  else read Decoder._is_game_over.

(** A value of the [info] dictionary. *)
Inductive value : Type :=
| VInt (z : Z)
| VBool (b : bool)
| VStr (s : string).

(** The dictionary built by [dict(key=..., ...)], in insertion order. *)
Definition info_dict := list (string * value).

Definition _get_info : M info_dict :=
  coins <- read_int Decoder._coins ;;
  flag_get <- read Decoder._flag_get ;;
  life <- read Decoder._life ;;
  score <- read_int Decoder._score ;;
  stage <- read Decoder._stage ;;
  status <- read Decoder._player_status ;;
  time <- read_int Decoder._time ;;
  world <- read Decoder._world ;;
  x_pos <- read Decoder._x_position ;;
  y_pos <- read Decoder._y_position ;;
  x <- read Decoder._x_position ;;
  last_x <- gets last_frame_x_position ;;
  y <- read Decoder._y_position ;;
  last_y <- gets last_frame_y_position ;;
  ret [ ("coins", VInt coins);
        ("flag_get", VBool flag_get);
        ("life", VInt life);
        ("score", VInt score);
        ("stage", VInt stage);
        ("status", VStr status);
        ("time", VInt time);
        ("world", VInt world);
        ("x_pos", VInt x_pos);
        ("y_pos", VInt y_pos);
        ("x_speed", VInt (x - last_x));
        ("y_speed", VInt (y - last_y)) ]%string.

(** Modelled from the spec: [NESEnv.step], the base-class method that
    [step] delegates to, is part of nes-py and not of this module.  It
    advances one frame with the action, runs the per-step post-processing
    unless a reset is pending, then computes reward, termination and the
    info record.  The pending-reset flag and the truncation flag belong to
    the base class; the former is an argument here and the latter is left
    out of the returned tuple. *)
Definition NESEnv_step (fuel : nat) (will_reset : bool) (action : byte)
  : M (Z * bool * info_dict) :=
  _frame_advance action ;;
  _did_step fuel will_reset ;;
  reward <- _get_reward ;;
  terminated <- _get_terminated ;;
  info <- _get_info ;;
  ret (reward, terminated, info).

Definition step (fuel : nat) (will_reset : bool) (action : byte)
  : M (Z * bool * info_dict) :=
  x <- read Decoder._x_position ;;
  modify (set_last_frame_x_position x) ;;
  y <- read Decoder._y_position ;;
  modify (set_last_frame_y_position y) ;;
  NESEnv_step fuel will_reset action.

End Environment.

Arguments Ok {nes_py A} a self.
Arguments ValueError {nes_py A}.
Arguments Unfinished {nes_py A}.

Notation "x <- m ;; k" := (bind m (fun x => k))
  (at level 61, m at next level, right associativity).
Notation "m ;; k" := (bind m (fun _ => k))
  (at level 61, right associativity).

(** ** A scripted console

    A stand-in for the emulator, used to run the methods on concrete
    inputs.  Each frame it shows the next entry of a script on the three
    time digits, moves Mario one pixel to the right when the right button
    (bit 7 of the controller byte) is held, and records the controller
    byte it received. *)
Module Scripted.

Record state := mkState {
  script : list (byte * byte * byte);
  presses : list byte
}.

Definition show_time (d : byte * byte * byte) (r : RAM) : RAM :=
  let '(hundreds, tens, units) := d in
  ram_set (ram_set (ram_set r 0x07F8 hundreds) 0x07F9 tens) 0x07FA units.

Definition walk (action : byte) (r : RAM) : RAM :=
  if N.testbit action 7 then ram_set r 0x86 (N.succ (r 0x86%N) mod 256)%N
  else r.

Definition frame (action : byte) (s : RAM * state) : RAM * state :=
  let '(r, c) := s in
  match script c with
  | [] => (walk action r, mkState [] (presses c ++ [action]))
  | d :: rest =>
      (walk action (show_time d r), mkState rest (presses c ++ [action]))
  end.

#[export] Instance nes : NESEnv := {| console := state; emulate := frame |}.

(** RAM at power-on: Mario in the normal state (0x08), inside the
    viewport, two lives in reserve, everything else zero. *)
Definition boot : RAM :=
  fun a =>
    if N.eqb a 0x000E then 0x08%N
    else if N.eqb a 0x00B5 then 1%N
    else if N.eqb a 0x075A then 2%N
    else 0%N.

Definition env (r : RAM) (s : list (byte * byte * byte))
    (target : option (Z * Z * Z)) (time_last x y : Z) : SuperMarioBrosEnv :=
  match target with
  | Some (w, st, a) =>
      mkEnv r (mkState s []) (Some w) (Some st) (Some a) time_last x y
  | None => mkEnv r (mkState s []) None None None time_last x y
  end.

(** The title screen holds the time at 000 for three frames; the clock
    then reads 399 for two frames, 400 for two frames and 399 again. *)
Definition title_screen : SuperMarioBrosEnv :=
  env boot
    [ (0, 0, 0); (0, 0, 0); (0, 0, 0); (3, 9, 9);
      (3, 9, 9); (4, 0, 0); (4, 0, 0); (3, 9, 9) ]%N
    None 0 0 0.

(** World 1-1 in play: the clock at 400, about to tick to 399. *)
Definition in_play : SuperMarioBrosEnv :=
  env (show_time (4, 0, 0)%N boot) [ (3, 9, 9)%N ] (Some (1, 1, 1)) 400 0 0.

End Scripted.

(** ** A patching console

    A second stand-in for the emulator: each frame applies the next list
    of RAM writes of its script, whatever the controller byte, and records
    the controller byte it received. *)
Module Patching.

Record state := mkState {
  script : list (list (N * byte));
  presses : list byte
}.

Definition apply_writes (writes : list (N * byte)) (r : RAM) : RAM :=
  fold_left (fun r w => ram_set r (fst w) (snd w)) writes r.

Definition frame (action : byte) (s : RAM * state) : RAM * state :=
  let '(r, c) := s in
  match script c with
  | [] => (r, mkState [] (presses c ++ [action]))
  | writes :: rest =>
      (apply_writes writes r, mkState rest (presses c ++ [action]))
  end.

Definition nes : NESEnv := {| console := state; emulate := frame |}.

Definition env (r : RAM) (s : list (list (N * byte)))
    (world stage area : option Z) (time_last x y : Z)
  : @SuperMarioBrosEnv nes :=
  @mkEnv nes r (mkState s []) world stage area time_last x y.

(** Mario enters an area (state 0x07) with the pre-level timer running;
    two frames later he is in the normal state. *)
Definition entering_area : @SuperMarioBrosEnv nes :=
  env (ram_set (ram_set (Scripted.show_time (4, 0, 0)%N Scripted.boot)
                  0x000E 0x07) 0x07A0 0x10)
    [ [ (0x07A0, 0x0F) ]; [ (0x000E, 0x08) ] ]%N
    None None None 400 40 79.

(** The end of a world (game mode 2) in the full game: the clock stands
    at 250 for two frames, then the next world starts at 400. *)
Definition world_over : @SuperMarioBrosEnv nes :=
  env (ram_set (Scripted.show_time (2, 5, 0)%N Scripted.boot) 0x0770 2)
    [ []; [];
      [ (0x07F8, 4); (0x07F9, 0); (0x07FA, 0); (0x0770, 1) ] ]%N
    None None None 250 3160 79.

(** Mario falls into a pit (viewport 2) in stage 1-1 with a long
    area-change timer; the frame after he is forced dead shows the
    lives screen state (0x00) and the frame after that the normal
    state. *)
Definition falling : @SuperMarioBrosEnv nes :=
  env (ram_set (ram_set (Scripted.show_time (3, 0, 0)%N Scripted.boot)
                  0x00B5 2) 0x06DE 0x20)
    [ [ (0x000E, 0x00); (0x00B5, 1) ]; [ (0x000E, 0x08) ] ]%N
    (Some 1) (Some 1) (Some 1) 300 700 (-40).

(** A target whose stage is missing: [is_single_stage_env] still
    holds. *)
Definition stage_missing : @SuperMarioBrosEnv nes :=
  env Scripted.boot [] (Some 2) None (Some 1) 0 0 0.

(** Title screen of a single-stage environment for world 3, stage 2. *)
Definition target_3_2 : @SuperMarioBrosEnv nes :=
  env Scripted.boot [] (Some 3) (Some 2) (Some 2) 0 0 0.

End Patching.

(** ** Specification-side notions *)

(** The value of a list of decimal digits, most significant first: the
    sum of [digit_i * 10^(N-1-i)]. *)
Fixpoint positional_value (digits : list byte) : Z :=
  match digits with
  | [] => 0
  | d :: rest =>
      Z.of_N d * 10 ^ Z.of_nat (List.length rest) + positional_value rest
  end.

(** The [count] bytes from [address] on. *)
Definition bytes_at (ram : RAM) (address : N) (count : nat) : list byte :=
  map (fun i => ram (address + N.of_nat i)%N) (seq 0 count).

Section Notions.

Context {nes_py : NESEnv}.

(** The state of the whole emulator held by an environment. *)
Definition emulator (self : SuperMarioBrosEnv) : RAM * console :=
  (ram self, machine self).

Definition set_emulator (e : RAM * console) (self : SuperMarioBrosEnv)
  : SuperMarioBrosEnv :=
  set_machine (snd e) (set_ram (fst e) self).

(** One frame with Start held followed by one frame with nothing held. *)
Definition press_release (e : RAM * console) : RAM * console :=
  emulate 0%N (emulate 8%N e).

(** [_skip_start_screen] up to the point where the time is first seen
    to be nonzero. *)
Definition start_phase (fuel : nat) : M unit :=
  _frame_advance 8%N ;;
  _frame_advance 0%N ;;
  press_start_until_started fuel.

(** The method [m] leaves the observation [f] of the object as it was. *)
Definition preserves {A B} (f : SuperMarioBrosEnv -> B) (m : M A) : Prop :=
  forall self a self', m self = Ok a self' -> f self' = f self.

(** The previous-frame position trackers. *)
Definition last_frame_position (self : SuperMarioBrosEnv) : Z * Z :=
  (last_frame_x_position self, last_frame_y_position self).

(** The idle phase in the words of the specification: from the state
    [mid] in which the time is first nonzero, only no-op frames are
    advanced, as long as the time has not changed, and the time read at
    the end is the stored previous time. *)
Definition idle_phase_as_specified (fuel : nat) (self : SuperMarioBrosEnv)
  : Prop :=
  forall mid final,
    start_phase fuel self = Ok tt mid ->
    _skip_start_screen fuel self = Ok tt final ->
    (exists k,
        emulator final = Nat.iter k (emulate 0%N) (emulator mid) /\
        (forall j, (j < k)%nat ->
           Decoder._time (fst (Nat.iter j (emulate 0%N) (emulator mid)))
           = Decoder._time (ram mid)) /\
        Decoder._time (ram final) <> Decoder._time (ram mid)) /\
    Decoder._time (ram final) = Some (_time_last final).

(** The episode context: previous time and previous-frame position. *)
Definition episode_context (self : SuperMarioBrosEnv) : Z * Z * Z :=
  (_time_last self, last_frame_x_position self, last_frame_y_position self).

(** The target configuration. *)
Definition target_config (self : SuperMarioBrosEnv)
  : option Z * option Z * option Z :=
  (_target_world self, _target_stage self, _target_area self).

(** Mario is busy or the world is over: the condition of the loop of
    [_skip_occupied_states]. *)
Definition occupied (self : SuperMarioBrosEnv) : bool :=
  Decoder._is_busy (ram self) || Decoder._is_world_over (ram self).

(** One round of [_skip_occupied_states]: the pre-level timer is zeroed
    and a no-op frame advanced. *)
Definition occupied_round (self : SuperMarioBrosEnv) : SuperMarioBrosEnv :=
  set_emulator
    (emulate 0%N (ram_set (ram self) 0x07A0 0%N, machine self)) self.

(** One no-op frame. *)
Definition noop_frame (self : SuperMarioBrosEnv) : SuperMarioBrosEnv :=
  set_emulator (emulate 0%N (emulator self)) self.

(** One round of the idle loop of [_skip_start_screen]. *)
Definition idle_round (self : SuperMarioBrosEnv) : SuperMarioBrosEnv :=
  match Decoder._time (ram self) with
  | Some t =>
      set_emulator (press_release (emulator self)) (set_time_last t self)
  | None => self
  end.

(** The decoded time, 0 standing for a read that raises. *)
Definition time_or_zero (self : SuperMarioBrosEnv) : Z :=
  match Decoder._time (ram self) with
  | Some t => t
  | None => 0
  end.

End Notions.

(** [d.get(key)] on an [info] dictionary. *)
Fixpoint lookup (key : string) (d : info_dict) : option value :=
  match d with
  | [] => None
  | (k, v) :: rest => if String.eqb key k then Some v else lookup key rest
  end.

(** * Properties *)

(** ** Decimal strings *)

Lemma le_9_cases (d : N) :
  (d <= 9)%N ->
  In d [0; 1; 2; 3; 4; 5; 6; 7; 8; 9]%N.
Proof.
  intros H. simpl.
  assert (d = 0 \/ d = 1 \/ d = 2 \/ d = 3 \/ d = 4 \/ d = 5 \/ d = 6 \/
          d = 7 \/ d = 8 \/ d = 9)%N as C by lia.
  intuition auto.
Qed.

Lemma int_acc_str_digit (d : N) (acc : Z) (s : string) :
  (d <= 9)%N ->
  int_acc acc (str d ++ s) = int_acc (10 * acc + Z.of_N d) s.
Proof.
  intros H. apply le_9_cases in H. simpl in H.
  repeat (destruct H as [<- | H]; [reflexivity |]). contradiction.
Qed.

Lemma str_digit_nonempty (d : N) (s : string) :
  (d <= 9)%N -> (str d ++ s)%string <> EmptyString.
Proof.
  intros H. apply le_9_cases in H. simpl in H.
  repeat (destruct H as [<- | H]; [discriminate |]). contradiction.
Qed.

Lemma int_nonempty (s : string) :
  s <> EmptyString -> int s = int_acc 0 s.
Proof. destruct s; [congruence | reflexivity]. Qed.

Lemma int_acc_join_digits (ds : list byte) :
  Forall (fun d => (d <= 9)%N) ds ->
  forall acc,
    int_acc acc (join (map str ds))
    = Some (acc * 10 ^ Z.of_nat (List.length ds) + positional_value ds).
Proof.
  induction 1 as [| d ds Hd _ IH]; intros acc.
  - simpl. f_equal. lia.
  - cbn [map join fold_right]. fold (join (map str ds)).
    rewrite int_acc_str_digit by assumption.
    rewrite IH. f_equal.
    cbn [List.length positional_value].
    rewrite Nat2Z.inj_succ, Z.pow_succ_r by lia. ring.
Qed.

Lemma int_join_digits (ds : list byte) :
  ds <> [] ->
  Forall (fun d => (d <= 9)%N) ds ->
  int (join (map str ds)) = Some (positional_value ds).
Proof.
  intros Hne Hds. destruct ds as [| d ds]; [congruence |].
  rewrite int_nonempty.
  - rewrite int_acc_join_digits by assumption. reflexivity.
  - cbn [map join fold_right]. apply str_digit_nonempty.
    now inversion Hds.
Qed.

Lemma positional_value_bounds (ds : list byte) :
  Forall (fun d => (d <= 9)%N) ds ->
  0 <= positional_value ds < 10 ^ Z.of_nat (List.length ds).
Proof.
  induction 1 as [| d ds Hd _ IH]; cbn [positional_value List.length].
  - simpl. lia.
  - rewrite Nat2Z.inj_succ, Z.pow_succ_r by lia.
    assert (0 < 10 ^ Z.of_nat (List.length ds)) by (apply Z.pow_pos_nonneg; lia).
    nia.
Qed.

(** A numeral written by [str] is read back by [int_acc] without error,
    whatever the byte. *)
Lemma int_acc_string_of_uint (u : Decimal.uint) (s : string) :
  forall acc, exists acc',
    int_acc acc (NilEmpty.string_of_uint u ++ s) = int_acc acc' s.
Proof.
  induction u; intros acc; cbn;
    try (eexists; reflexivity); apply IHu.
Qed.

Lemma str_cons (b : byte) : exists c s, str b = String c s.
Proof.
  unfold str, NilZero.string_of_uint.
  destruct (N.to_uint b); cbn; eauto.
Qed.

Lemma int_acc_str (b : byte) (s : string) :
  forall acc, exists acc', int_acc acc (str b ++ s) = int_acc acc' s.
Proof.
  intros acc. unfold str, NilZero.string_of_uint.
  destruct (N.to_uint b) eqn:E;
    try (rewrite <- E; apply int_acc_string_of_uint).
  cbn. eauto.
Qed.

Lemma int_acc_join_total (bs : list byte) :
  forall acc, exists v, int_acc acc (join (map str bs)) = Some v.
Proof.
  induction bs as [| b bs IH]; intros acc; cbn [map join fold_right].
  - simpl. eauto.
  - fold (join (map str bs)).
    destruct (int_acc_str b (join (map str bs)) acc) as [acc' ->].
    apply IH.
Qed.

Lemma int_join_total (bs : list byte) :
  bs <> [] -> exists v, int (join (map str bs)) = Some v.
Proof.
  intros Hne. destruct bs as [| b bs]; [congruence |].
  rewrite int_nonempty.
  - apply int_acc_join_total.
  - cbn [map join fold_right].
    destruct (str_cons b) as (c & s & ->). discriminate.
Qed.

(** [int] reads back what [str] writes, for every byte value. *)
Lemma int_str_byte (b : byte) :
  (b < 256)%N -> int (str b) = Some (Z.of_N b).
Proof.
  intros Hb.
  assert (Hall : forallb
            (fun b => match int (str b) with
                      | Some v => Z.eqb v (Z.of_N b)
                      | None => false
                      end)
            (map N.of_nat (seq 0 256)) = true) by (vm_compute; reflexivity).
  rewrite forallb_forall in Hall.
  specialize (Hall b).
  destruct (int (str b)) as [v |].
  - f_equal. apply Z.eqb_eq, Hall.
    apply in_map_iff. exists (N.to_nat b). split; [lia |].
    apply in_seq. lia.
  - exfalso. assert (false = true); [| discriminate].
    apply Hall, in_map_iff. exists (N.to_nat b). split; [lia |].
    apply in_seq. lia.
Qed.

Example str_examples :
  str 0 = "0"%string /\ str 9 = "9"%string /\ str 10 = "10"%string /\
  str 255 = "255"%string.
Proof. repeat split. Qed.

Example int_examples :
  int "400" = Some 400 /\ int "007" = Some 7 /\ int "" = None /\
  int (join (map str [0; 1; 2; 3; 5; 0]%N)) = Some 12350.
Proof. repeat split. Qed.

(** ** Slices *)

Lemma ram_slice_in_range (ram : RAM) (count : nat) :
  forall address,
    (address + N.of_nat count <= RAM_SIZE)%N ->
    ram_slice ram address count = bytes_at ram address count.
Proof.
  unfold bytes_at.
  induction count as [| k IH]; intros address H; [reflexivity |].
  cbn [ram_slice seq map].
  destruct (N.ltb_spec address RAM_SIZE) as [_ | Hge]; [| lia].
  rewrite N.add_0_r. f_equal.
  rewrite IH by lia.
  rewrite <- seq_shift, map_map.
  apply map_ext. intros i. f_equal. lia.
Qed.

Lemma bytes_at_nonempty (ram : RAM) (address : N) (count : nat) :
  (0 < count)%nat -> bytes_at ram address count <> [].
Proof. destruct count; [lia | discriminate]. Qed.

Lemma length_bytes_at (ram : RAM) (address : N) (count : nat) :
  List.length (bytes_at ram address count) = count.
Proof. unfold bytes_at. now rewrite length_map, length_seq. Qed.

(** Reading a counter never raises: the slice is inside RAM and not
    empty. *)
Lemma _read_mem_range_total (ram : RAM) (address : N) (count : nat) :
  (0 < count)%nat ->
  (address + N.of_nat count <= RAM_SIZE)%N ->
  exists v, Decoder._read_mem_range ram address count = Some v.
Proof.
  intros Hc Hr. unfold Decoder._read_mem_range.
  rewrite ram_slice_in_range by assumption.
  apply int_join_total, bytes_at_nonempty, Hc.
Qed.

Lemma _time_total (ram : RAM) : exists t, Decoder._time ram = Some t.
Proof. apply _read_mem_range_total; [lia | unfold RAM_SIZE; lia]. Qed.

Lemma _score_total (ram : RAM) : exists t, Decoder._score ram = Some t.
Proof. apply _read_mem_range_total; [lia | unfold RAM_SIZE; lia]. Qed.

Lemma _coins_total (ram : RAM) : exists t, Decoder._coins ram = Some t.
Proof. apply _read_mem_range_total; [lia | unfold RAM_SIZE; lia]. Qed.

Lemma _read_mem_range_digits (ram : RAM) (address : N) (count : nat) :
  (0 < count)%nat ->
  (address + N.of_nat count <= RAM_SIZE)%N ->
  Forall (fun d => (d <= 9)%N) (bytes_at ram address count) ->
  Decoder._read_mem_range ram address count
  = Some (positional_value (bytes_at ram address count)).
Proof.
  intros Hc Hr Hd. unfold Decoder._read_mem_range.
  rewrite ram_slice_in_range by assumption.
  apply int_join_digits; [apply bytes_at_nonempty, Hc | exact Hd].
Qed.

(** ** Memory decoder *)

Example decode_in_play :
  let r := ram Scripted.in_play in
  Decoder._time r = Some 400 /\ Decoder._score r = Some 0 /\
  Decoder._coins r = Some 0 /\ Decoder._life r = 2 /\
  Decoder._world r = 1 /\ Decoder._stage r = 1 /\
  Decoder._x_position r = 0 /\ Decoder._y_position r = 255 /\
  Decoder._player_status r = "small"%string /\
  Decoder._is_dying r = false /\ Decoder._is_busy r = false /\
  Decoder._flag_get r = false.
Proof. vm_compute. repeat split. Qed.

(** C4.  The vertical position is [255 + (255 - pixel)] when the viewport
    byte is below 1, [- pixel - 1] when it is above 1 and [255 - pixel]
    when it is 1; viewport 0, 2 and 1 with pixel 10 give 500, -11 and
    245. *)
Theorem y_position_by_viewport (ram : RAM) :
  let viewport := ram 0x00B5%N in
  let pixel := Z.of_N (ram 0x03B8%N) in
  ((viewport < 1)%N -> Decoder._y_position ram = 255 + (255 - pixel)) /\
  ((1 < viewport)%N -> Decoder._y_position ram = - pixel - 1) /\
  (viewport = 1%N -> Decoder._y_position ram = 255 - pixel) /\
  (viewport = 0%N -> pixel = 10 -> Decoder._y_position ram = 500) /\
  (viewport = 2%N -> pixel = 10 -> Decoder._y_position ram = -11) /\
  (viewport = 1%N -> pixel = 10 -> Decoder._y_position ram = 245).
Proof.
  cbv zeta.
  unfold Decoder._y_position, Decoder._y_viewport, Decoder._y_pixel.
  destruct (N.ltb_spec (ram 0x00B5%N) 1);
    destruct (N.ltb_spec 1 (ram 0x00B5%N));
    repeat split; intros; lia.
Qed.

Lemma _is_stage_over_from_true (ram : RAM) (addresses : list N) :
  Decoder._is_stage_over_from ram addresses = true <->
  (exists a, In a addresses /\ (ram a = 0x2D \/ ram a = 0x31)%N) /\
  ram 0x001D%N = 3%N.
Proof.
  assert (Hin : forall b, byte_in b _STAGE_OVER_ENEMIES = true <->
                          (b = 0x2D \/ b = 0x31)%N).
  { intros b. unfold byte_in, _STAGE_OVER_ENEMIES. cbn [existsb].
    rewrite !orb_true_iff, !N.eqb_eq. intuition congruence. }
  induction addresses as [| a rest IH]; cbn [Decoder._is_stage_over_from].
  - split; [discriminate | intros [(a & [] & _) _]].
  - destruct (byte_in (ram a) _STAGE_OVER_ENEMIES) eqn:E.
    + rewrite N.eqb_eq. apply Hin in E.
      split; [intros H; split; [exists a; simpl; auto | exact H] | tauto].
    + rewrite IH. split.
      * intros [(a' & Ha' & Hv) H3]. split; [| exact H3].
        exists a'. simpl. auto.
      * intros [(a' & [<- | Ha'] & Hv) H3].
        -- apply Hin in Hv. congruence.
        -- split; [exists a'; auto | exact H3].
Qed.

(** C5.  [_is_stage_over] holds exactly when one of the five enemy slots
    0x0016-0x001A holds Bowser (0x2D) or the flagpole (0x31) and the
    float-state byte at 0x001D is 3; a flag with float state 3 gives true,
    float state 3 without either enemy (a vine) gives false. *)
Theorem is_stage_over_iff (ram : RAM) :
  (forall a, In a _ENEMY_TYPE_ADDRESSES <-> (0x0016 <= a <= 0x001A)%N) /\
  (Decoder._is_stage_over ram = true <->
     (exists a, In a _ENEMY_TYPE_ADDRESSES /\ (ram a = 0x2D \/ ram a = 0x31)%N)
     /\ ram 0x001D%N = 3%N) /\
  (forall a, In a _ENEMY_TYPE_ADDRESSES -> ram a = 0x31%N ->
     ram 0x001D%N = 3%N -> Decoder._is_stage_over ram = true) /\
  ((forall a, In a _ENEMY_TYPE_ADDRESSES -> ram a <> 0x2D%N /\ ram a <> 0x31%N) ->
     ram 0x001D%N = 3%N -> Decoder._is_stage_over ram = false).
Proof.
  unfold Decoder._is_stage_over.
  split; [| split; [| split]].
  - intros a. unfold _ENEMY_TYPE_ADDRESSES. simpl. lia.
  - apply _is_stage_over_from_true.
  - intros a Ha Hflag H3. apply _is_stage_over_from_true. eauto.
  - intros Hnone _. apply not_true_is_false.
    intros H. apply _is_stage_over_from_true in H as [(a & Ha & Hv) _].
    destruct (Hnone a Ha). tauto.
Qed.

(** C6.  Each counter is [int] of the joined [str] of the bytes at its
    base address (six for the score, three for the time, two for the
    coins); when each byte is a decimal digit this is the positional sum
    of the digits. *)
Theorem counters_decode_digits (ram : RAM) :
  let score_bytes :=
    [ram 0x07DE; ram 0x07DF; ram 0x07E0; ram 0x07E1; ram 0x07E2; ram 0x07E3]%N in
  let time_bytes := [ram 0x07F8; ram 0x07F9; ram 0x07FA]%N in
  let coin_bytes := [ram 0x07ED; ram 0x07EE]%N in
  let digit := fun d : byte => (d <= 9)%N in
  (Decoder._score ram = int (join (map str score_bytes)) /\
   Decoder._time ram = int (join (map str time_bytes)) /\
   Decoder._coins ram = int (join (map str coin_bytes))) /\
  (Forall digit score_bytes ->
     Decoder._score ram = Some (positional_value score_bytes) /\
     positional_value score_bytes
     = Z.of_N (ram 0x07DE%N) * 100000 + Z.of_N (ram 0x07DF%N) * 10000
       + Z.of_N (ram 0x07E0%N) * 1000 + Z.of_N (ram 0x07E1%N) * 100
       + Z.of_N (ram 0x07E2%N) * 10 + Z.of_N (ram 0x07E3%N)) /\
  (Forall digit time_bytes ->
     Decoder._time ram = Some (positional_value time_bytes) /\
     positional_value time_bytes
     = Z.of_N (ram 0x07F8%N) * 100 + Z.of_N (ram 0x07F9%N) * 10
       + Z.of_N (ram 0x07FA%N)) /\
  (Forall digit coin_bytes ->
     Decoder._coins ram = Some (positional_value coin_bytes) /\
     positional_value coin_bytes
     = Z.of_N (ram 0x07ED%N) * 10 + Z.of_N (ram 0x07EE%N)) /\
  (forall address count,
     (0 < count)%nat ->
     (address + N.of_nat count <= RAM_SIZE)%N ->
     Forall digit (bytes_at ram address count) ->
     Decoder._read_mem_range ram address count
     = Some (positional_value (bytes_at ram address count))).
Proof.
  cbv zeta.
  split; [repeat split |].
  split; [| split; [| split]].
  - intros H. split.
    + apply (fun ne => int_join_digits _ ne H). discriminate.
    + cbn [positional_value List.length]. lia.
  - intros H. split.
    + apply (fun ne => int_join_digits _ ne H). discriminate.
    + cbn [positional_value List.length]. lia.
  - intros H. split.
    + apply (fun ne => int_join_digits _ ne H). discriminate.
    + cbn [positional_value List.length]. lia.
  - intros address count. apply _read_mem_range_digits.
Qed.

(** C9, as amended.  When each byte read by a counter is at most 9 the
    decoded value is below [10^N]: the time is at most 999, the coins at
    most 99 and the score at most 999999 (at most 999990 when its last
    byte is 0); with a byte above 9 the time, the coins and the score can
    reach 1000, 100 and 1000000. *)
Theorem counters_below_power_of_ten (ram : RAM) :
  let score_bytes :=
    [ram 0x07DE; ram 0x07DF; ram 0x07E0; ram 0x07E1; ram 0x07E2; ram 0x07E3]%N in
  let time_bytes := [ram 0x07F8; ram 0x07F9; ram 0x07FA]%N in
  let coin_bytes := [ram 0x07ED; ram 0x07EE]%N in
  let digit := fun d : byte => (d <= 9)%N in
  (forall address count,
     (0 < count)%nat ->
     (address + N.of_nat count <= RAM_SIZE)%N ->
     Forall digit (bytes_at ram address count) ->
     exists v, Decoder._read_mem_range ram address count = Some v /\
               0 <= v < 10 ^ Z.of_nat count) /\
  (Forall digit time_bytes ->
     exists v, Decoder._time ram = Some v /\ 0 <= v <= 999) /\
  (Forall digit coin_bytes ->
     exists v, Decoder._coins ram = Some v /\ 0 <= v <= 99) /\
  (Forall digit score_bytes ->
     exists v, Decoder._score ram = Some v /\ 0 <= v <= 999999) /\
  (Forall digit score_bytes -> ram 0x07E3%N = 0%N ->
     exists v, Decoder._score ram = Some v /\ 0 <= v <= 999990) /\
  (let r := ram_set ram 0x07F8 10%N in
   Forall digit [ram 0x07F9; ram 0x07FA]%N ->
   exists v, Decoder._time r = Some v /\ 999 < v) /\
  (let zero : RAM := fun _ => 0%N in
   Decoder._time (ram_set zero 0x07F8 10%N) = Some 1000 /\
   Decoder._coins (ram_set zero 0x07ED 10%N) = Some 100 /\
   Decoder._score (ram_set zero 0x07DE 10%N) = Some 1000000).
Proof.
  cbv zeta.
  assert (Hgen : forall d ds, Forall (fun d => (d <= 9)%N) (d :: ds) ->
            exists v, int (join (map str (d :: ds))) = Some v /\
                      0 <= v < 10 ^ Z.of_nat (List.length (d :: ds))).
  { intros d ds Hds. exists (positional_value (d :: ds)). split.
    - apply int_join_digits; [discriminate | exact Hds].
    - now apply positional_value_bounds. }
  split; [| split; [| split; [| split; [| split; [| split]]]]].
  - intros address count Hc Hr Hd.
    exists (positional_value (bytes_at ram address count)). split.
    + now apply _read_mem_range_digits.
    + pose proof (positional_value_bounds _ Hd) as Hb.
      now rewrite length_bytes_at in Hb.
  - intros H. destruct (Hgen _ _ H) as (v & Hv & Hb).
    exists v. split; [exact Hv | cbn in Hb; lia].
  - intros H. destruct (Hgen _ _ H) as (v & Hv & Hb).
    exists v. split; [exact Hv | cbn in Hb; lia].
  - intros H. destruct (Hgen _ _ H) as (v & Hv & Hb).
    exists v. split; [exact Hv | cbn in Hb; lia].
  - intros H H0. eexists. split.
    + apply (fun ne => int_join_digits _ ne H). discriminate.
    + pose proof (positional_value_bounds _ H) as Hb.
      cbn [positional_value List.length] in *. rewrite H0 in *.
      repeat match goal with
             | H : Forall _ (_ :: _) |- _ => inversion H; subst; clear H
             end.
      lia.
  - intros H.
    change (Decoder._time (ram_set ram 0x07F8 10%N))
      with (int_acc 0 (str 10%N ++ join (map str [ram 0x07F9; ram 0x07FA]%N))).
    change (str 10%N) with "10"%string. cbn [String.append int_acc digit_of_ascii].
    cbn -[int_acc join map str Z.mul Z.add].
    rewrite int_acc_join_digits by assumption.
    eexists. split; [reflexivity |].
    pose proof (positional_value_bounds _ H). cbn [List.length] in *. lia.
  - repeat split.
Qed.

(** C9, as stated, fails: six score bytes equal to 9 decode to 999999,
    above 999990. *)
Lemma score_all_nines_above_999990 :
  ~ (forall ram : RAM,
       Forall (fun d : byte => (d <= 9)%N)
         [ram 0x07DE; ram 0x07DF; ram 0x07E0;
          ram 0x07E1; ram 0x07E2; ram 0x07E3]%N ->
       forall v, Decoder._score ram = Some v -> v <= 999990).
Proof.
  intros H.
  specialize (H (fun _ => 9%N)).
  assert (999999 <= 999990); [| lia].
  apply H; [| reflexivity].
  repeat constructor; discriminate.
Qed.

(** ** Running the methods *)

Section Methods.

Context {nes_py : NESEnv}.

Lemma bind_Ok {A B} (m : M A) (k : A -> M B) self b final :
  bind m k self = Ok b final <->
  exists a mid, m self = Ok a mid /\ k a mid = Ok b final.
Proof.
  unfold bind. split.
  - destruct (m self) as [a mid | |]; try discriminate. eauto.
  - intros (a & mid & -> & H). exact H.
Qed.

Lemma bind_run {A B} (m : M A) (k : A -> M B) self a mid :
  m self = Ok a mid -> bind m k self = k a mid.
Proof. intros H. unfold bind. now rewrite H. Qed.

Lemma while_continue (fuel : nat) (cond : M bool) (body : M unit) self mid :
  cond self = Ok true mid ->
  while (S fuel) cond body self = (body ;; while fuel cond body) mid.
Proof. intros H. cbn [while]. now rewrite (bind_run _ _ _ _ _ H). Qed.

Lemma while_exit (fuel : nat) (cond : M bool) (body : M unit) self mid :
  cond self = Ok false mid ->
  while (S fuel) cond body self = Ok tt mid.
Proof. intros H. cbn [while]. now rewrite (bind_run _ _ _ _ _ H). Qed.

Lemma read_int_time (self : SuperMarioBrosEnv) :
  exists t, Decoder._time (ram self) = Some t /\
            read_int Decoder._time self = Ok t self.
Proof.
  destruct (_time_total (ram self)) as [t Ht].
  exists t. unfold read_int. now rewrite Ht.
Qed.

Lemma read_int_Some (f : RAM -> option Z) (self : SuperMarioBrosEnv) v :
  f (ram self) = Some v -> read_int f self = Ok v self.
Proof. intros H. unfold read_int. now rewrite H. Qed.

Lemma _frame_advance_run (action : byte) (self : SuperMarioBrosEnv) :
  _frame_advance action self
  = Ok tt (set_emulator (emulate action (emulator self)) self).
Proof.
  unfold _frame_advance, modify, set_emulator, emulator.
  now destruct (emulate action (ram self, machine self)).
Qed.

(** ** Termination flag *)

(** C1.  In single-stage mode (target world and area configured) the
    terminated flag is [is_dying or is_dead or flag_get]; in full-game
    mode it is [is_game_over], which holds when the lives byte is 0xFF. *)
Theorem terminated_by_mode (self : SuperMarioBrosEnv) :
  let r := ram self in
  let single :=
    is_some (_target_world self) && is_some (_target_area self) in
  is_single_stage_env self = Ok single self /\
  (single = true <-> _target_world self <> None /\ _target_area self <> None) /\
  (single = true ->
     _get_terminated self
     = Ok (Decoder._is_dying r || Decoder._is_dead r || Decoder._flag_get r)
          self) /\
  (single = false ->
     _get_terminated self = Ok (Decoder._is_game_over r) self) /\
  (Decoder._is_game_over r = true <-> r 0x075A%N = 0xFF%N).
Proof.
  cbv zeta. split; [reflexivity |]. split; [| split; [| split]].
  - destruct (_target_world self), (_target_area self); cbn;
      intuition congruence.
  - intros Hs. unfold _get_terminated, bind, is_single_stage_env, gets.
    rewrite Hs. unfold read, gets, ret.
    destruct (Decoder._is_dying (ram self)); [reflexivity |].
    destruct (Decoder._is_dead (ram self)); reflexivity.
  - intros Hs. unfold _get_terminated, bind, is_single_stage_env, gets.
    now rewrite Hs.
  - unfold Decoder._is_game_over, Decoder._life.
    rewrite Z.eqb_eq. lia.
Qed.

(** ** Reward function *)

Lemma _x_reward_run (self : SuperMarioBrosEnv) :
  let delta := Decoder._x_position (ram self) - last_frame_x_position self in
  _x_reward self
  = Ok (if Z.ltb delta (-5) || Z.gtb delta 5 then 0 else delta) self.
Proof.
  cbv zeta. unfold _x_reward, bind, read, gets, ret.
  match goal with
  | |- context [if ?b then _ else _] => now destruct b
  end.
Qed.

(** C3.  The x component of the reward is the raw delta
    [x_position - last_frame_x_position] when its absolute value is at
    most 5 and 0 when it exceeds 5. *)
Theorem x_reward_clamped (self : SuperMarioBrosEnv) :
  let delta := Decoder._x_position (ram self) - last_frame_x_position self in
  exists v,
    _x_reward self = Ok v self /\
    (Z.abs delta <= 5 -> v = delta) /\
    (5 < Z.abs delta -> v = 0).
Proof.
  cbv zeta. eexists. split; [apply _x_reward_run |].
  cbv zeta.
  set (delta := Decoder._x_position (ram self) - last_frame_x_position self).
  destruct (Z.ltb_spec delta (-5)), (Z.gtb_spec delta 5); cbn [orb]; lia.
Qed.

Lemma _time_penalty_run (self : SuperMarioBrosEnv) (t : Z) :
  Decoder._time (ram self) = Some t ->
  _time_penalty self
  = Ok (if Z.gtb (t - _time_last self) 0 then 0 else t - _time_last self)
       (set_time_last t self).
Proof.
  intros Ht. unfold _time_penalty, bind, gets.
  rewrite (read_int_Some _ _ _ Ht). cbv beta iota.
  rewrite (read_int_Some _ _ _ Ht). cbv beta iota.
  unfold modify, ret.
  now destruct (Z.gtb (t - _time_last self) 0).
Qed.

(** C2.  The time penalty is never positive: it is [time - _time_last]
    when that is at most 0 and 0 otherwise; in both cases [_time_last]
    is the current time afterwards. *)
Theorem time_penalty_nonpositive (self : SuperMarioBrosEnv) :
  exists t v after,
    Decoder._time (ram self) = Some t /\
    _time_penalty self = Ok v after /\
    v <= 0 /\
    (t - _time_last self <= 0 -> v = t - _time_last self) /\
    (0 < t - _time_last self -> v = 0) /\
    _time_last after = t /\
    after = set_time_last t self.
Proof.
  destruct (_time_total (ram self)) as [t Ht].
  exists t. eexists. eexists.
  split; [exact Ht |]. split; [apply _time_penalty_run, Ht |].
  destruct (Z.gtb_spec (t - _time_last self) 0);
    repeat split; try reflexivity; lia.
Qed.

(** C10.  Evaluating the x component changes nothing in the object, so
    evaluating it twice yields the same value twice; evaluating the time
    penalty stores the current time in [_time_last], so that a second
    evaluation after a clock tick returns 0 where the first returned -1. *)
Theorem x_reward_read_only (self : SuperMarioBrosEnv) :
  (exists v,
     _x_reward self = Ok v self /\
     (a <- _x_reward ;; b <- _x_reward ;; ret (a, b)) self = Ok (v, v) self) /\
  (forall v after, _x_reward self = Ok v after ->
     last_frame_x_position after = last_frame_x_position self /\
     _time_last after = _time_last self /\
     after = self) /\
  (exists t,
     Decoder._time (ram self) = Some t /\
     forall previous,
       let before := set_time_last previous self in
       exists v, _time_penalty before = Ok v (set_time_last t self)) /\
  (exists t,
     Decoder._time (ram self) = Some t /\
     let ticked := set_time_last (t + 1) self in
     (a <- _time_penalty ;; b <- _time_penalty ;; ret (a, b)) ticked
     = Ok (-1, 0) (set_time_last t self)).
Proof.
  pose proof (_x_reward_run self) as Hv. cbv zeta in Hv.
  match type of Hv with _ = Ok ?x _ => set (v := x) in Hv end.
  destruct (_time_total (ram self)) as [t Ht].
  split; [| split; [| split]].
  - exists v. split; [exact Hv |].
    unfold bind. rewrite Hv. rewrite Hv. reflexivity.
  - intros v' after H. rewrite Hv in H. now inversion H.
  - exists t. split; [exact Ht |]. intros previous before.
    eexists. apply (_time_penalty_run before t Ht).
  - exists t. split; [exact Ht |]. cbv zeta.
    unfold bind.
    rewrite (_time_penalty_run (set_time_last (t + 1) self) t Ht).
    rewrite (_time_penalty_run (set_time_last t (set_time_last (t + 1) self)) t Ht).
    cbn [_time_last set_time_last].
    replace (t - (t + 1)) with (-1) by lia.
    replace (t - t) with 0 by lia. reflexivity.
Qed.

End Methods.

(** ** What the methods leave unchanged *)

Section Frame.

Context {nes_py : NESEnv}.
Context {B : Type} (f : SuperMarioBrosEnv -> B).

Lemma preserves_ret {A} (a : A) : preserves f (ret a).
Proof. intros self a' self' H. now inversion H. Qed.

Lemma preserves_gets {A} (g : SuperMarioBrosEnv -> A) : preserves f (gets g).
Proof. intros self a' self' H. now inversion H. Qed.

Lemma preserves_read {A} (g : RAM -> A) : preserves f (read g).
Proof. apply preserves_gets. Qed.

Lemma preserves_read_int (g : RAM -> option Z) : preserves f (read_int g).
Proof.
  intros self a self'. unfold read_int.
  destruct (g (ram self)); [| discriminate].
  intros H. now inversion H.
Qed.

Lemma preserves_modify (g : SuperMarioBrosEnv -> SuperMarioBrosEnv) :
  (forall self, f (g self) = f self) -> preserves f (modify g).
Proof. intros Hg self a self' H. inversion H. apply Hg. Qed.

Lemma preserves_bind {A C} (m : M A) (k : A -> M C) :
  preserves f m -> (forall a, preserves f (k a)) -> preserves f (bind m k).
Proof.
  intros Hm Hk self c self' H.
  apply bind_Ok in H as (a & mid & H1 & H2).
  rewrite (Hk a _ _ _ H2). exact (Hm _ _ _ H1).
Qed.

Lemma preserves_while (fuel : nat) (cond : M bool) (body : M unit) :
  preserves f cond -> preserves f body -> preserves f (while fuel cond body).
Proof.
  intros Hc Hb. induction fuel as [| fuel IH]; cbn [while].
  - intros self a self' H. discriminate.
  - apply preserves_bind; [exact Hc |].
    intros [|]; [| apply preserves_ret].
    apply preserves_bind; [exact Hb | intros _; exact IH].
Qed.

End Frame.

Create HintDb frame.

#[local] Hint Resolve preserves_ret preserves_gets preserves_read
  preserves_read_int preserves_while : frame.

(** Decompose a method into the primitives it is built from. *)
Ltac frame_steps :=
  repeat first
    [ apply preserves_bind; [| intros ?]
    | apply preserves_while
    | match goal with
      | |- preserves _ (if ?b then _ else _) => destruct b
      | |- preserves _ (match ?o with Some _ => _ | None => _ end) =>
          destruct o
      end ];
  auto with frame.

Section StepInfo.

Context {nes_py : NESEnv}.

Lemma preserves_last_frame_poke (a : N) (v : byte) :
  preserves last_frame_position (poke a v).
Proof. apply preserves_modify. reflexivity. Qed.

Lemma preserves_last_frame_frame_advance (action : byte) :
  preserves last_frame_position (_frame_advance action).
Proof.
  intros self a self' H. rewrite _frame_advance_run in H.
  now inversion H.
Qed.

Lemma preserves_last_frame_set_time_last (t : Z) :
  preserves last_frame_position (modify (set_time_last t)).
Proof. apply preserves_modify. reflexivity. Qed.

Hint Resolve preserves_last_frame_poke preserves_last_frame_frame_advance
  preserves_last_frame_set_time_last : frame.

Lemma preserves_last_frame_did_step (fuel : nat) (will_reset : bool) :
  preserves last_frame_position (_did_step fuel will_reset).
Proof.
  unfold _did_step, _kill_mario, _skip_end_of_world, _skip_change_area,
    _skip_occupied_states, _runout_prelevel_timer, is_single_stage_env.
  frame_steps.
Qed.

Lemma preserves_last_frame_get_reward :
  preserves last_frame_position _get_reward.
Proof.
  unfold _get_reward, _x_reward, _time_penalty, _death_penalty.
  frame_steps.
Qed.

Lemma preserves_last_frame_get_terminated :
  preserves last_frame_position _get_terminated.
Proof.
  unfold _get_terminated, is_single_stage_env.
  frame_steps.
Qed.

Lemma _get_info_run (self : SuperMarioBrosEnv) :
  exists coins score time,
    Decoder._coins (ram self) = Some coins /\
    Decoder._score (ram self) = Some score /\
    Decoder._time (ram self) = Some time /\
    _get_info self
    = Ok [ ("coins", VInt coins);
           ("flag_get", VBool (Decoder._flag_get (ram self)));
           ("life", VInt (Decoder._life (ram self)));
           ("score", VInt score);
           ("stage", VInt (Decoder._stage (ram self)));
           ("status", VStr (Decoder._player_status (ram self)));
           ("time", VInt time);
           ("world", VInt (Decoder._world (ram self)));
           ("x_pos", VInt (Decoder._x_position (ram self)));
           ("y_pos", VInt (Decoder._y_position (ram self)));
           ("x_speed",
            VInt (Decoder._x_position (ram self) - last_frame_x_position self));
           ("y_speed",
            VInt (Decoder._y_position (ram self) - last_frame_y_position self))
         ]%string self.
Proof.
  destruct (_coins_total (ram self)) as [coins Hc].
  destruct (_score_total (ram self)) as [score Hs].
  destruct (_time_total (ram self)) as [time Ht].
  exists coins, score, time. repeat split; try assumption.
  unfold _get_info, bind, read_int, read, gets, ret.
  rewrite Hc, Hs, Ht. reflexivity.
Qed.

Lemma preserves_emulator_set_time_last (t : Z) :
  preserves emulator (modify (set_time_last t)).
Proof. apply preserves_modify. reflexivity. Qed.

Lemma preserves_emulator_get_reward : preserves emulator _get_reward.
Proof.
  unfold _get_reward, _x_reward, _time_penalty, _death_penalty.
  frame_steps; apply preserves_emulator_set_time_last.
Qed.

Lemma preserves_emulator_get_terminated : preserves emulator _get_terminated.
Proof.
  unfold _get_terminated, is_single_stage_env.
  frame_steps.
Qed.

(** C8.  A completed step advances one frame with the action and runs
    the post-processing; its info has exactly the twelve keys coins,
    flag_get, life, score, stage, status, time, world, x_pos, y_pos,
    x_speed, y_speed, each decoded from the RAM the step ends with;
    x_speed and y_speed are the position decoded there minus the position
    decoded, and recorded in the trackers, when [step] was entered. *)
Theorem step_info_keys_and_speed
    (fuel : nat) (will_reset : bool) (action : byte)
    (self after : SuperMarioBrosEnv)
    (reward : Z) (terminated : bool) (info : info_dict) :
  step fuel will_reset action self = Ok (reward, terminated, info) after ->
  let entered :=
    set_last_frame_y_position (Decoder._y_position (ram self))
      (set_last_frame_x_position (Decoder._x_position (ram self)) self) in
  let advanced := set_emulator (emulate action (emulator self)) entered in
  (exists post,
     _did_step fuel will_reset advanced = Ok tt post /\
     emulator after = emulator post) /\
  last_frame_x_position after = Decoder._x_position (ram self) /\
  last_frame_y_position after = Decoder._y_position (ram self) /\
  (exists coins score time,
     Decoder._coins (ram after) = Some coins /\
     Decoder._score (ram after) = Some score /\
     Decoder._time (ram after) = Some time /\
     info
     = [ ("coins", VInt coins);
         ("flag_get", VBool (Decoder._flag_get (ram after)));
         ("life", VInt (Decoder._life (ram after)));
         ("score", VInt score);
         ("stage", VInt (Decoder._stage (ram after)));
         ("status", VStr (Decoder._player_status (ram after)));
         ("time", VInt time);
         ("world", VInt (Decoder._world (ram after)));
         ("x_pos", VInt (Decoder._x_position (ram after)));
         ("y_pos", VInt (Decoder._y_position (ram after)));
         ("x_speed",
          VInt (Decoder._x_position (ram after)
                - Decoder._x_position (ram self)));
         ("y_speed",
          VInt (Decoder._y_position (ram after)
                - Decoder._y_position (ram self))) ]%string) /\
  map fst info
  = [ "coins"; "flag_get"; "life"; "score"; "stage"; "status"; "time";
      "world"; "x_pos"; "y_pos"; "x_speed"; "y_speed" ]%string /\
  lookup "x_pos" info = Some (VInt (Decoder._x_position (ram after))) /\
  lookup "y_pos" info = Some (VInt (Decoder._y_position (ram after))) /\
  lookup "x_speed" info
  = Some (VInt (Decoder._x_position (ram after)
                - Decoder._x_position (ram self))) /\
  lookup "y_speed" info
  = Some (VInt (Decoder._y_position (ram after)
                - Decoder._y_position (ram self))).
Proof.
  intros H entered advanced. unfold step, NESEnv_step in H.
  apply bind_Ok in H as (x & s1 & Hx & H). inversion Hx; subst x s1; clear Hx.
  apply bind_Ok in H as ([] & s2 & Hmx & H). inversion Hmx; subst s2; clear Hmx.
  apply bind_Ok in H as (y & s3 & Hy & H). inversion Hy; subst y s3; clear Hy.
  apply bind_Ok in H as ([] & s4 & Hmy & H). inversion Hmy; subst s4; clear Hmy.
  change (set_last_frame_y_position (Decoder._y_position (ram self))
            (set_last_frame_x_position (Decoder._x_position (ram self)) self))
    with entered in H.
  apply bind_Ok in H as ([] & s5 & Hframe & H).
  rewrite _frame_advance_run in Hframe.
  change (set_emulator (emulate action (emulator entered)) entered)
    with advanced in Hframe.
  inversion Hframe; subst s5; clear Hframe.
  apply bind_Ok in H as ([] & post & Hdid & H).
  apply bind_Ok in H as (r & s7 & Hreward & H).
  apply bind_Ok in H as (t & s8 & Hterm & H).
  apply bind_Ok in H as (i & s9 & Hinfo & H).
  inversion H; subst; clear H.
  destruct (_get_info_run s8) as (coins & score & time & Hc & Hs & Ht & Hrun).
  rewrite Hrun in Hinfo. inversion Hinfo; subst; clear Hinfo.
  assert (Hemu : emulator after = emulator post).
  { rewrite (preserves_emulator_get_terminated _ _ _ Hterm).
    exact (preserves_emulator_get_reward _ _ _ Hreward). }
  assert (Hlast : last_frame_position after
                  = (Decoder._x_position (ram self),
                     Decoder._y_position (ram self))).
  { rewrite (preserves_last_frame_get_terminated _ _ _ Hterm).
    rewrite (preserves_last_frame_get_reward _ _ _ Hreward).
    rewrite (preserves_last_frame_did_step _ _ _ _ _ Hdid).
    reflexivity. }
  unfold last_frame_position in Hlast. inversion Hlast as [[Hlx Hly]].
  rewrite Hlx, Hly.
  split; [exists post; split; [exact Hdid | exact Hemu] |].
  split; [reflexivity |]. split; [reflexivity |].
  split; [exists coins, score, time; repeat split; assumption |].
  repeat split.
Qed.

End StepInfo.

(** ** Skipping the start screen *)

Section StartScreen.

Context {nes_py : NESEnv}.

Lemma emulator_set_emulator (e : RAM * console) (self : SuperMarioBrosEnv) :
  emulator (set_emulator e self) = e.
Proof. now destruct e. Qed.

Lemma press_release_run (self : SuperMarioBrosEnv) :
  (_frame_advance 8%N ;; _frame_advance 0%N) self
  = Ok tt (set_emulator (press_release (emulator self)) self).
Proof.
  unfold bind. rewrite _frame_advance_run. rewrite _frame_advance_run.
  rewrite emulator_set_emulator. reflexivity.
Qed.

(** The first loop only returns with a nonzero time. *)
Lemma press_start_until_started_exit (fuel : nat) :
  forall self mid,
    press_start_until_started fuel self = Ok tt mid ->
    exists t, Decoder._time (ram mid) = Some t /\ t <> 0.
Proof.
  unfold press_start_until_started.
  induction fuel as [| fuel IH]; intros self mid H; [discriminate |].
  destruct (read_int_time self) as (t & Ht & Hrun).
  destruct (Z.eqb_spec t 0) as [E | Hne].
  - erewrite while_continue in H.
    + apply bind_Ok in H as ([] & s3 & _ & H). exact (IH _ _ H).
    + rewrite (bind_run _ _ _ _ _ Hrun). unfold ret.
      now rewrite (proj2 (Z.eqb_eq t 0) E).
  - erewrite while_exit in H.
    + inversion H; subst. eauto.
    + rewrite (bind_run _ _ _ _ _ Hrun). unfold ret.
      now rewrite (proj2 (Z.eqb_neq t 0) Hne).
Qed.

Lemma idle_condition (self : SuperMarioBrosEnv) (t : Z) :
  Decoder._time (ram self) = Some t ->
  (t <- read_int Decoder._time ;;
   last <- gets _time_last ;;
   ret (Z.geb t last)) self
  = Ok (Z.geb t (_time_last self)) self.
Proof.
  intros Ht. now rewrite (bind_run _ _ _ _ _ (read_int_Some _ _ _ Ht)).
Qed.

(** One more round of the idle loop: the time is not below the stored
    one. *)
Lemma idle_after_start_continue (fuel : nat) (self : SuperMarioBrosEnv) (t : Z) :
  Decoder._time (ram self) = Some t ->
  _time_last self <= t ->
  idle_after_start (S fuel) self
  = idle_after_start fuel
      (set_emulator (press_release (emulator self)) (set_time_last t self)).
Proof.
  intros Ht Hle. unfold idle_after_start.
  erewrite while_continue.
  2:{ rewrite (idle_condition _ _ Ht).
      destruct (Z.geb_spec t (_time_last self)); [reflexivity | lia]. }
  assert (Hbody :
    (t <- read_int Decoder._time ;;
     modify (set_time_last t) ;;
     _frame_advance 8%N ;;
     _frame_advance 0%N) self
    = Ok tt (set_emulator (press_release (emulator self))
               (set_time_last t self))).
  { rewrite (bind_run _ _ _ _ _ (read_int_Some _ _ _ Ht)).
    erewrite bind_run by reflexivity.
    exact (press_release_run (set_time_last t self)). }
  now rewrite (bind_run _ _ _ _ _ Hbody).
Qed.

(** The idle loop returns: the time is below the stored one. *)
Lemma idle_after_start_exit (fuel : nat) (self : SuperMarioBrosEnv) (t : Z) :
  Decoder._time (ram self) = Some t ->
  t < _time_last self ->
  idle_after_start (S fuel) self = Ok tt self.
Proof.
  intros Ht Hlt. unfold idle_after_start.
  apply while_exit.
  rewrite (idle_condition _ _ Ht).
  destruct (Z.geb_spec t (_time_last self)); [lia | reflexivity].
Qed.

Lemma idle_after_start_run (n : nat) :
  forall (ts : nat -> Z) (fuel : nat) (self : SuperMarioBrosEnv),
    (n + 2 <= fuel)%nat ->
    (forall k, (k <= S n)%nat ->
       Decoder._time (fst (Nat.iter k press_release (emulator self)))
       = Some (ts k)) ->
    (forall k, (k < n)%nat -> ts k <= ts (S k)) ->
    ts (S n) < ts n ->
    _time_last self <= ts 0%nat ->
    idle_after_start fuel self
    = Ok tt (set_time_last (ts n)
               (set_emulator (Nat.iter (S n) press_release (emulator self))
                  self)).
Proof.
  induction n as [| n IH]; intros ts fuel self Hfuel Hts Hmono Hdrop Hlast.
  - destruct fuel as [| [| fuel]]; try lia.
    rewrite (idle_after_start_continue _ _ (ts 0%nat)); [| apply (Hts 0%nat); lia | exact Hlast].
    rewrite (idle_after_start_exit _ _ (ts 1%nat)).
    + reflexivity.
    + pose proof (Hts 1%nat ltac:(lia)) as H1. cbn [Nat.iter] in H1.
      exact H1.
    + exact Hdrop.
  - destruct fuel as [| fuel]; try lia.
    rewrite (idle_after_start_continue _ _ (ts 0%nat)); [| apply (Hts 0%nat); lia | exact Hlast].
    rewrite (IH (fun k => ts (S k))).
    + rewrite emulator_set_emulator, <- Nat.iter_succ_r. reflexivity.
    + lia.
    + intros k Hk. rewrite emulator_set_emulator, <- Nat.iter_succ_r.
      apply Hts. lia.
    + intros k Hk. apply Hmono. lia.
    + exact Hdrop.
    + cbn [_time_last set_emulator set_machine set_ram set_time_last].
      apply (Hmono 0%nat). lia.
Qed.

Lemma _skip_start_screen_split (fuel : nat) (self : SuperMarioBrosEnv) :
  _skip_start_screen fuel self
  = (start_phase fuel ;;
     t <- read_int Decoder._time ;;
     modify (set_time_last t) ;;
     idle_after_start fuel) self.
Proof.
  unfold _skip_start_screen, start_phase, bind.
  destruct (_frame_advance 8%N self) as [[] s1 | |]; reflexivity.
Qed.

Lemma _did_reset_time_last (self : SuperMarioBrosEnv) (t : Z) :
  Decoder._time (ram self) = Some t ->
  exists reset,
    (_will_reset ;; _did_reset) self = Ok tt reset /\
    _time_last reset = t /\
    emulator reset = emulator self.
Proof.
  intros Ht. eexists.
  unfold _will_reset, _did_reset, bind, modify, read, gets.
  change (ram (set_time_last 0 self)) with (ram self).
  rewrite (read_int_Some Decoder._time (set_time_last 0 self) t Ht).
  split; [reflexivity | split; reflexivity].
Qed.

(** C7, as amended.  Once the first loop has seen a nonzero time, the idle
    loop advances pairs of frames, Start held then released, as long as
    the time read is not below the stored previous time (it may be equal
    or larger); when it returns, [_time_last] is the time read before the
    last pair, above the time at the end, and a following reset
    ([_will_reset], [_did_reset]) stores the time at the end. *)
Theorem skip_start_screen_idle_phase
    (fuel n : nat) (ts : nat -> Z) (self mid : SuperMarioBrosEnv) :
  start_phase fuel self = Ok tt mid ->
  (forall k, (k <= S n)%nat ->
     Decoder._time (fst (Nat.iter k press_release (emulator mid)))
     = Some (ts k)) ->
  (forall k, (k < n)%nat -> ts k <= ts (S k)) ->
  ts (S n) < ts n ->
  (n + 2 <= fuel)%nat ->
  ts 0%nat <> 0 /\
  exists final,
    _skip_start_screen fuel self = Ok tt final /\
    emulator final = Nat.iter (S n) press_release (emulator mid) /\
    _time_last final = ts n /\
    Decoder._time (ram final) = Some (ts (S n)) /\
    ts (S n) < _time_last final /\
    exists reset,
      (_will_reset ;; _did_reset) final = Ok tt reset /\
      _time_last reset = ts (S n) /\
      emulator reset = emulator final.
Proof.
  intros Hstart Hts Hmono Hdrop Hfuel.
  assert (H0 : Decoder._time (ram mid) = Some (ts 0%nat)).
  { apply (Hts 0%nat). lia. }
  split.
  - unfold start_phase in Hstart.
    apply bind_Ok in Hstart as ([] & s1 & _ & Hstart).
    apply bind_Ok in Hstart as ([] & s2 & _ & Hstart).
    apply press_start_until_started_exit in Hstart as (t & Ht & Hne).
    congruence.
  - set (final := set_time_last (ts n)
                    (set_emulator (Nat.iter (S n) press_release (emulator mid))
                       mid)).
    assert (Hend : Decoder._time (ram final) = Some (ts (S n))).
    { apply (Hts (S n)). lia. }
    exists final. split; [| split; [| split; [| split; [| split]]]].
    + rewrite _skip_start_screen_split. unfold bind at 1. rewrite Hstart.
      unfold bind at 1. rewrite (read_int_Some _ _ _ H0).
      unfold bind, modify.
      rewrite (idle_after_start_run n ts); try assumption.
      * reflexivity.
      * cbn [_time_last set_time_last]. lia.
    + unfold final. apply emulator_set_emulator.
    + reflexivity.
    + exact Hend.
    + exact Hdrop.
    + apply _did_reset_time_last, Hend.
Qed.

End StartScreen.

(** ** Runs on the scripted console *)

(** The start screen is skipped on the scripted title screen: play
    starts at 399, the clock rises to 400 and the loop goes on, then
    drops to 399 and the loop returns with 400 stored. *)
Lemma skip_start_screen_idle_phase_scripted :
  exists mid final : SuperMarioBrosEnv,
    start_phase 3 Scripted.title_screen = Ok tt mid /\
    _skip_start_screen 3 Scripted.title_screen = Ok tt final /\
    emulator final = Nat.iter 2 press_release (emulator mid) /\
    _time_last final = 400 /\
    Decoder._time (ram final) = Some 399.
Proof.
  pose (ts := fun k : nat => match k with 1%nat => 400 | _ => 399 end).
  eexists.
  assert (Hstart : start_phase 3 Scripted.title_screen = Ok tt _)
    by (vm_compute; reflexivity).
  destruct (skip_start_screen_idle_phase 3 1 ts _ _ Hstart)
    as (_ & final & Hrun & Hemu & Hlast & Htime & _).
  - intros k Hk.
    destruct k as [| [| [| k]]]; [vm_compute; reflexivity .. | lia].
  - intros k Hk. destruct k as [| k]; [vm_compute; discriminate | lia].
  - vm_compute. reflexivity.
  - lia.
  - exists final.
    split; [exact Hstart |]. split; [exact Hrun |]. split; [exact Hemu |].
    split; [exact Hlast | exact Htime].
Defined.

(** No-op frames only ever add zeros to what the scripted console
    records. *)
Lemma scripted_presses_of_noops (k : nat) (e : RAM * Scripted.state) :
  Scripted.presses (snd (Nat.iter k (@emulate Scripted.nes 0%N) e))
  = Scripted.presses (snd e) ++ repeat 0%N k.
Proof.
  induction k as [| k IH].
  - cbn [Nat.iter repeat]. now rewrite app_nil_r.
  - cbn [repeat]. rewrite repeat_cons, app_assoc, Nat.iter_succ.
    refine (eq_trans _ (f_equal (fun l => l ++ [0%N]) IH)).
    destruct (Nat.iter k (@emulate Scripted.nes 0%N) e) as [r c].
    cbn. destruct (Scripted.script c); reflexivity.
Qed.

(** C7, as stated, fails on the scripted title screen: in the idle phase
    Start is pressed on every other frame, so no number of no-op frames
    leads to the final state; the loop goes on after the time has changed
    from 399 to 400; and it returns with 400 stored while the time reads
    399. *)
Lemma idle_phase_not_as_specified :
  ~ idle_phase_as_specified 3 Scripted.title_screen /\
  exists mid final : SuperMarioBrosEnv,
    start_phase 3 Scripted.title_screen = Ok tt mid /\
    _skip_start_screen 3 Scripted.title_screen = Ok tt final /\
    Scripted.presses (machine final)
    = (Scripted.presses (machine mid) ++ [8; 0; 8; 0])%N /\
    (forall k, emulator final <> Nat.iter k (emulate 0%N) (emulator mid)) /\
    Decoder._time (ram mid) = Some 399 /\
    Decoder._time (fst (press_release (emulator mid))) = Some 400 /\
    emulator final = press_release (press_release (emulator mid)) /\
    _time_last final = 400 /\
    Decoder._time (ram final) = Some 399.
Proof.
  split.
  - intros H.
    edestruct H as [_ Hbaseline];
      [vm_compute; reflexivity | vm_compute; reflexivity |].
    vm_compute in Hbaseline. discriminate.
  - eexists. eexists.
    split; [vm_compute; reflexivity |].
    split; [vm_compute; reflexivity |].
    split; [reflexivity |]. split; [| repeat split].
    intros k E.
    apply (f_equal (fun e => Scripted.presses (snd e))) in E.
    rewrite scripted_presses_of_noops in E.
    destruct k as [| k]; cbn in E; discriminate.
Qed.

(** A step to the right on the scripted console completes: the console
    has received the one controller byte, Mario is one pixel further and
    the info reports that position and a speed of one pixel. *)
Lemma step_info_keys_and_speed_scripted :
  exists reward terminated info after,
    step 1 false 128%N Scripted.in_play = Ok (reward, terminated, info) after /\
    Scripted.presses (machine after) = [128%N] /\
    map fst info
    = [ "coins"; "flag_get"; "life"; "score"; "stage"; "status"; "time";
        "world"; "x_pos"; "y_pos"; "x_speed"; "y_speed" ]%string /\
    lookup "x_pos" info = Some (VInt 1) /\
    lookup "x_speed" info = Some (VInt 1) /\
    lookup "y_speed" info = Some (VInt 0) /\
    lookup "time" info = Some (VInt 399).
Proof.
  do 4 eexists.
  assert (Hstep : step 1 false 128%N Scripted.in_play = Ok (_, _, _) _)
    by (vm_compute; reflexivity).
  destruct (step_info_keys_and_speed _ _ _ _ _ _ _ _ Hstep)
    as (_ & _ & _ & _ & Hkeys & Hxp & _ & Hx & Hy).
  split; [exact Hstep |]. split; [vm_compute; reflexivity |].
  split; [exact Hkeys |]. split; [exact Hxp |].
  split; [exact Hx |]. split; [exact Hy |]. vm_compute. reflexivity.
Defined.

(** * Further properties of the module *)

(** ** Reading counters: errors, clipping, sign *)

Lemma digit_of_ascii_nonneg (c : ascii) (d : Z) :
  digit_of_ascii c = Some d -> 0 <= d.
Proof.
  unfold digit_of_ascii.
  destruct (_ && _)%bool; [| discriminate].
  intros H. inversion H. lia.
Qed.

Lemma int_acc_nonneg (s : string) :
  forall acc v, 0 <= acc -> int_acc acc s = Some v -> 0 <= v.
Proof.
  induction s as [| c s IH]; intros acc v Hacc H; cbn [int_acc] in H.
  - inversion H. lia.
  - destruct (digit_of_ascii c) as [d |] eqn:Hd; [| discriminate].
    apply digit_of_ascii_nonneg in Hd.
    apply (IH (10 * acc + d)); [lia | exact H].
Qed.

Lemma int_nonneg (s : string) (v : Z) : int s = Some v -> 0 <= v.
Proof.
  destruct s; [discriminate |].
  unfold int. apply int_acc_nonneg. lia.
Qed.

Lemma bytes_at_S (ram : RAM) (address : N) (count : nat) :
  bytes_at ram address (S count)
  = ram address :: bytes_at ram (N.succ address) count.
Proof.
  unfold bytes_at. cbn [seq map]. rewrite N.add_0_r. f_equal.
  rewrite <- seq_shift, map_map.
  apply map_ext. intros i. f_equal. lia.
Qed.

(** A slice keeps the bytes below the end of RAM and drops the others. *)
Lemma ram_slice_clipped (ram : RAM) (count : nat) :
  forall address,
    ram_slice ram address count
    = bytes_at ram address
        (Nat.min count (N.to_nat (RAM_SIZE - address))).
Proof.
  induction count as [| k IH]; intros address; [reflexivity |].
  cbn [ram_slice].
  destruct (N.ltb_spec address RAM_SIZE) as [Hlt | Hge].
  - replace (Nat.min (S k) (N.to_nat (RAM_SIZE - address)))
      with (S (Nat.min k (N.to_nat (RAM_SIZE - N.succ address)))) by lia.
    now rewrite bytes_at_S, IH.
  - replace (N.to_nat (RAM_SIZE - address)) with 0%nat by lia.
    now rewrite Nat.min_0_r.
Qed.

Lemma int_join_None (bs : list byte) :
  int (join (map str bs)) = None <-> bs = [].
Proof.
  split.
  - intros H. destruct bs as [| b bs]; [reflexivity |].
    destruct (int_join_total (b :: bs)) as [v Hv]; [discriminate | congruence].
  - intros ->. reflexivity.
Qed.

(** X1.  For a non-negative address and a length of at most 1433 bytes
    (three digits a byte, so that the joined numeral stays within the
    4300 digits that CPython's [int] accepts), [_read_mem_range] raises
    exactly when the length is 0 or the address is at or beyond the end
    of RAM; otherwise it reads the bytes that lie inside RAM, and its
    result is never negative.  The three counters never raise. *)
Theorem read_mem_range_raises_iff (ram : RAM) (address : N) (count : nat) :
  (count <= 1433)%nat ->
  (Decoder._read_mem_range ram address count = None <->
     count = 0%nat \/ (RAM_SIZE <= address)%N) /\
  Decoder._read_mem_range ram address count
  = int (join (map str
      (bytes_at ram address
         (Nat.min count (N.to_nat (RAM_SIZE - address)))))) /\
  (forall v, Decoder._read_mem_range ram address count = Some v -> 0 <= v) /\
  (exists score time coins,
     Decoder._score ram = Some score /\ Decoder._time ram = Some time /\
     Decoder._coins ram = Some coins /\
     0 <= score /\ 0 <= time /\ 0 <= coins).
Proof.
  intros _.
  unfold Decoder._read_mem_range at 1 2 3.
  rewrite ram_slice_clipped.
  split; [| split; [reflexivity | split]].
  - rewrite int_join_None.
    pose proof (length_bytes_at ram address
                  (Nat.min count (N.to_nat (RAM_SIZE - address)))) as Hlen.
    split.
    + intros E. rewrite E in Hlen. cbn [List.length] in Hlen. lia.
    + intros H.
      destruct (bytes_at _ _ _); [reflexivity | cbn [List.length] in Hlen; lia].
  - intros v. apply int_nonneg.
  - destruct (_score_total ram) as [s Hs].
    destruct (_time_total ram) as [t Ht].
    destruct (_coins_total ram) as [c Hc].
    exists s, t, c. repeat split; try assumption.
    + apply (int_nonneg _ _ Hs).
    + apply (int_nonneg _ _ Ht).
    + apply (int_nonneg _ _ Hc).
Qed.

(** A three-byte read at the last address of RAM reads that one byte; a
    read of no byte there raises. *)
Lemma read_mem_range_raises_iff_last_byte :
  Decoder._read_mem_range (ram_set Scripted.boot 0x07FF 7) 0x07FF 3
  = Some 7 /\
  Decoder._read_mem_range Scripted.boot 0x07FF 3
  = int (str (Scripted.boot 0x07FF%N)) /\
  Decoder._read_mem_range Scripted.boot 0x07FF 0 = None /\
  Decoder._read_mem_range Scripted.boot 0x0800 3 = None.
Proof.
  split; [vm_compute; reflexivity |]. split; [| split].
  - destruct (read_mem_range_raises_iff Scripted.boot 0x07FF 3 ltac:(lia))
      as (_ & Hread & _).
    exact Hread.
  - destruct (read_mem_range_raises_iff Scripted.boot 0x07FF 0 ltac:(lia))
      as ([_ Hnone] & _).
    apply Hnone. left. reflexivity.
  - destruct (read_mem_range_raises_iff Scripted.boot 0x0800 3 ltac:(lia))
      as ([_ Hnone] & _).
    apply Hnone. right. vm_compute. discriminate.
Defined.

(** X2.  Under the one-digit-per-byte encoding the decoded time
    determines the three time bytes; without it decoding is ambiguous:
    the coin bytes 1,10 and 11,0 both decode to 110. *)
Theorem time_digits_injective :
  (forall ram1 ram2 : RAM,
     Forall (fun d : byte => (d <= 9)%N)
       [ram1 0x07F8; ram1 0x07F9; ram1 0x07FA]%N ->
     Forall (fun d : byte => (d <= 9)%N)
       [ram2 0x07F8; ram2 0x07F9; ram2 0x07FA]%N ->
     Decoder._time ram1 = Decoder._time ram2 ->
     ram1 0x07F8%N = ram2 0x07F8%N /\ ram1 0x07F9%N = ram2 0x07F9%N /\
     ram1 0x07FA%N = ram2 0x07FA%N) /\
  (let ram1 := ram_set (ram_set (fun _ => 0%N) 0x07ED 1) 0x07EE 10 in
   let ram2 := ram_set (ram_set (fun _ => 0%N) 0x07ED 11) 0x07EE 0 in
   ram1 0x07ED%N <> ram2 0x07ED%N /\
   Decoder._coins ram1 = Some 110 /\ Decoder._coins ram2 = Some 110).
Proof.
  split.
  - intros ram1 ram2 H1 H2 E.
    assert (E1 : Decoder._time ram1 = Some (positional_value
              [ram1 0x07F8; ram1 0x07F9; ram1 0x07FA]%N)).
    { apply (fun ne => int_join_digits _ ne H1). discriminate. }
    assert (E2 : Decoder._time ram2 = Some (positional_value
              [ram2 0x07F8; ram2 0x07F9; ram2 0x07FA]%N)).
    { apply (fun ne => int_join_digits _ ne H2). discriminate. }
    rewrite E1, E2 in E. inversion E as [Ev].
    cbn [positional_value List.length] in Ev.
    repeat match goal with
           | H : Forall _ (_ :: _) |- _ => inversion H; subst; clear H
           end.
    lia.
  - cbv zeta. repeat split. discriminate.
Qed.

(** ** Positions and player state *)

(** X3.  With byte-sized cells the horizontal position lies in
    0..65535 and splits back into the page byte (quotient by 256) and
    the in-page byte (remainder). *)
Theorem x_position_page_offset (ram : RAM) :
  (ram 0x6D < 256)%N ->
  (ram 0x86 < 256)%N ->
  0 <= Decoder._x_position ram <= 65535 /\
  Decoder._x_position ram / 256 = Z.of_N (ram 0x6D%N) /\
  Decoder._x_position ram mod 256 = Z.of_N (ram 0x86%N).
Proof.
  intros Hp Ho. unfold Decoder._x_position.
  change 0x100 with 256.
  split; [lia |]. split.
  - rewrite Z.div_add_l by lia. rewrite Z.div_small by lia. lia.
  - rewrite Z.add_comm, Z.mod_add by lia. apply Z.mod_small. lia.
Qed.

Lemma x_position_page_offset_boot :
  Decoder._x_position Scripted.boot / 256 = 0 /\
  Decoder._x_position Scripted.boot mod 256 = 0.
Proof.
  destruct (x_position_page_offset Scripted.boot) as (_ & Hq & Hr).
  - vm_compute. reflexivity.
  - vm_compute. reflexivity.
  - split; [exact Hq | exact Hr].
Defined.

(** X4.  With a byte-sized pixel cell the vertical position is negative
    exactly when the viewport byte is above 1, in which case Mario counts
    as dying; it lies in 255..510 above the screen (viewport 0) and in
    0..255 inside it (viewport 1), so 255 is reported both for the top
    pixel of the screen and for the lowest pixel above it. *)
Theorem y_position_bands (ram : RAM) :
  (ram 0x03B8 < 256)%N ->
  let viewport := ram 0x00B5%N in
  let y := Decoder._y_position ram in
  (y < 0 <-> (1 < viewport)%N) /\
  (y < 0 -> -256 <= y /\ Decoder._is_dying ram = true) /\
  (viewport = 0%N -> 255 <= y <= 510) /\
  (viewport = 1%N -> 0 <= y <= 255) /\
  (Decoder._y_position
     (ram_set (ram_set ram 0x00B5 0) 0x03B8 255) = 255 /\
   Decoder._y_position
     (ram_set (ram_set ram 0x00B5 1) 0x03B8 0) = 255).
Proof.
  intros Hpx. cbv zeta.
  unfold Decoder._is_dying, Decoder._y_position, Decoder._y_viewport,
    Decoder._y_pixel.
  destruct (N.ltb_spec (ram 0x00B5%N) 1);
    destruct (N.ltb_spec 1 (ram 0x00B5%N));
    repeat split; intros; try lia;
    try (rewrite orb_true_r; reflexivity).
Qed.

Lemma y_position_bands_boot :
  0 <= Decoder._y_position Scripted.boot <= 255.
Proof.
  destruct (y_position_bands Scripted.boot) as (_ & _ & _ & H & _).
  - vm_compute. reflexivity.
  - apply H. reflexivity.
Defined.

(** X5.  Mario is busy exactly in the player states 0..5 and 7; a dead
    Mario (state 0x06) and one in the dying state (0x0B) are never
    busy. *)
Theorem busy_states (ram : RAM) :
  let state := ram 0x000E%N in
  (Decoder._is_busy ram = true <-> (state <= 7)%N /\ state <> 6%N) /\
  (Decoder._is_dead ram = true -> Decoder._is_busy ram = false) /\
  (state = 0x0B%N ->
     Decoder._is_busy ram = false /\ Decoder._is_dying ram = true).
Proof.
  cbv zeta.
  assert (Hbusy : Decoder._is_busy ram = true <->
                  (ram 0x000E <= 7)%N /\ ram 0x000E%N <> 6%N).
  { unfold Decoder._is_busy, Decoder._player_state, byte_in, _BUSY_STATES.
    cbn [existsb]. rewrite !orb_true_iff, !N.eqb_eq. lia. }
  split; [exact Hbusy |]. split.
  - unfold Decoder._is_dead, Decoder._player_state. rewrite N.eqb_eq.
    intros Hd. apply not_true_is_false. rewrite Hbusy. lia.
  - intros Hs. split.
    + apply not_true_is_false. rewrite Hbusy. lia.
    + unfold Decoder._is_dying, Decoder._player_state. now rewrite Hs.
Qed.

(** ** Reward and termination *)

Section Reward.

Context {nes_py : NESEnv}.

Lemma _get_terminated_run (self : SuperMarioBrosEnv) :
  exists terminated,
    _get_terminated self = Ok terminated self /\
    (is_some (_target_world self) && is_some (_target_area self) = true ->
       terminated
       = Decoder._is_dying (ram self) || Decoder._is_dead (ram self)
         || Decoder._flag_get (ram self)).
Proof.
  cbv [_get_terminated bind is_single_stage_env gets read ret].
  destruct (is_some (_target_world self) && is_some (_target_area self)).
  - destruct (Decoder._is_dying (ram self)); [eauto |].
    destruct (Decoder._is_dead (ram self)); eauto.
  - eexists. split; [reflexivity | discriminate].
Qed.

Lemma _death_penalty_run (self : SuperMarioBrosEnv) :
  _death_penalty self
  = Ok (if Decoder._is_dying (ram self) || Decoder._is_dead (ram self)
        then -25 else 0) self.
Proof.
  unfold _death_penalty, bind, read, gets, ret.
  destruct (Decoder._is_dying (ram self)); [reflexivity |].
  now destruct (Decoder._is_dead (ram self)).
Qed.

Lemma _get_reward_run (self : SuperMarioBrosEnv) (t : Z) :
  Decoder._time (ram self) = Some t ->
  let delta := Decoder._x_position (ram self) - last_frame_x_position self in
  let tick := t - _time_last self in
  _get_reward self
  = Ok ((if Z.ltb delta (-5) || Z.gtb delta 5 then 0 else delta)
        + (if Z.gtb tick 0 then 0 else tick)
        + (if Decoder._is_dying (ram self) || Decoder._is_dead (ram self)
           then -25 else 0))
       (set_time_last t self).
Proof.
  intros Ht. cbv zeta. unfold _get_reward.
  rewrite (bind_run _ _ _ _ _ (_x_reward_run self)).
  rewrite (bind_run _ _ _ _ _ (_time_penalty_run self t Ht)).
  rewrite (bind_run _ _ _ _ _ (_death_penalty_run (set_time_last t self))).
  reflexivity.
Qed.

(** X6.  The reward never exceeds 5, so the upper end of [reward_range]
    is respected; the lower end is not: whenever Mario is dying or dead
    the reward is at most -20, below -15.  While he is alive and the clock
    has dropped by at most 10 since the last evaluation the reward is
    inside [reward_range].  Evaluating the reward changes [_time_last]
    and nothing else. *)
Theorem get_reward_bounds (self : SuperMarioBrosEnv) :
  exists t r,
    Decoder._time (ram self) = Some t /\
    _get_reward self = Ok r (set_time_last t self) /\
    r <= 5 /\ r <= snd reward_range /\
    (Decoder._is_dying (ram self) || Decoder._is_dead (ram self) = true ->
       r <= -20 /\ r < fst reward_range) /\
    (Decoder._is_dying (ram self) || Decoder._is_dead (ram self) = false ->
       -10 <= t - _time_last self ->
       fst reward_range <= r).
Proof.
  destruct (_time_total (ram self)) as [t Ht].
  exists t. eexists. split; [exact Ht |].
  split; [apply (_get_reward_run self t Ht) |].
  cbn [reward_range fst snd].
  set (delta := Decoder._x_position (ram self) - last_frame_x_position self).
  set (tick := t - _time_last self).
  destruct (Z.ltb_spec delta (-5)), (Z.gtb_spec delta 5),
    (Z.gtb_spec tick 0),
    (Decoder._is_dying (ram self) || Decoder._is_dead (ram self));
    cbn [orb]; repeat split; intros; try discriminate; lia.
Qed.

(** X7.  Two evaluations of the reward in a row differ by the time
    penalty only: the second has no time penalty left, so it is at least
    the first. *)
Theorem get_reward_twice (self : SuperMarioBrosEnv) :
  exists t r1 r2 penalty,
    Decoder._time (ram self) = Some t /\
    _time_penalty self = Ok penalty (set_time_last t self) /\
    (a <- _get_reward ;; b <- _get_reward ;; ret (a, b)) self
    = Ok (r1, r2) (set_time_last t self) /\
    r2 = r1 - penalty /\ r1 <= r2.
Proof.
  destruct (_time_total (ram self)) as [t Ht].
  exists t. do 3 eexists. split; [exact Ht |].
  split; [apply (_time_penalty_run self t Ht) |].
  split.
  - rewrite (bind_run _ _ _ _ _ (_get_reward_run self t Ht)).
    rewrite (bind_run _ _ _ _ _ (_get_reward_run (set_time_last t self) t Ht)).
    reflexivity.
  - cbn [_time_last set_time_last ram last_frame_x_position].
    replace (t - t) with 0 by lia. cbn [Z.gtb Z.compare].
    destruct (Z.gtb_spec (t - _time_last self) 0); lia.
Qed.

(** X8.  In single-stage mode the episode terminates exactly when the
    death penalty applies or the flag is reached; the death penalty is
    -25 exactly when the player state is 0x0B or 0x06 or the viewport
    byte is above 1, and 0 otherwise. *)
Theorem death_penalty_and_termination (self : SuperMarioBrosEnv) :
  let r := ram self in
  exists d terminated,
    _death_penalty self = Ok d self /\
    _get_terminated self = Ok terminated self /\
    (d = -25 \/ d = 0) /\
    (d = -25 <->
       r 0x000E%N = 0x0B%N \/ r 0x000E%N = 0x06%N \/ (1 < r 0x00B5)%N) /\
    (is_some (_target_world self) && is_some (_target_area self) = true ->
       (terminated = true <-> d = -25 \/ Decoder._flag_get r = true)).
Proof.
  cbv zeta.
  destruct (_get_terminated_run self) as (terminated & Hterm & Hsingle).
  exists (if Decoder._is_dying (ram self) || Decoder._is_dead (ram self)
          then -25 else 0), terminated.
  split; [apply _death_penalty_run |]. split; [exact Hterm |].
  assert (Hd : Decoder._is_dying (ram self) || Decoder._is_dead (ram self)
               = true <->
               ram self 0x000E%N = 0x0B%N \/ ram self 0x000E%N = 0x06%N \/
               (1 < ram self 0x00B5)%N).
  { unfold Decoder._is_dying, Decoder._is_dead, Decoder._player_state,
      Decoder._y_viewport.
    rewrite !orb_true_iff, !N.eqb_eq, N.ltb_lt. tauto. }
  destruct (Decoder._is_dying (ram self) || Decoder._is_dead (ram self))
    eqn:E.
  - split; [auto |]. split; [tauto |].
    intros Hs. rewrite (Hsingle Hs); try rewrite E. cbn [orb]. tauto.
  - split; [auto |]. split.
    + split; [discriminate |]. intros H. apply Hd in H. discriminate.
    + intros Hs. rewrite (Hsingle Hs); try rewrite E. cbn [orb].
      split; [auto | intros [H | H]; [discriminate | exact H]].
Qed.

End Reward.

(** ** Info, reset *)

Section InfoReset.

Context {nes_py : NESEnv}.

(** X9.  The info record is built without changing the object; its
    x_speed is the raw horizontal delta, of which the x component of the
    reward is the clamped version: equal when the speed is at most 5 in
    absolute value, 0 otherwise. *)
Theorem info_speed_and_x_reward (self : SuperMarioBrosEnv) :
  exists info x_speed x_reward,
    _get_info self = Ok info self /\
    lookup "x_speed" info = Some (VInt x_speed) /\
    x_speed = Decoder._x_position (ram self) - last_frame_x_position self /\
    _x_reward self = Ok x_reward self /\
    (Z.abs x_speed <= 5 -> x_reward = x_speed) /\
    (5 < Z.abs x_speed -> x_reward = 0).
Proof.
  destruct (_get_info_run self) as (coins & score & time & _ & _ & _ & Hinfo).
  do 3 eexists. split; [exact Hinfo |].
  split; [reflexivity |]. split; [reflexivity |].
  split; [apply _x_reward_run |].
  cbv zeta.
  set (delta := Decoder._x_position (ram self) - last_frame_x_position self).
  destruct (Z.ltb_spec delta (-5)), (Z.gtb_spec delta 5); cbn [orb]; lia.
Qed.

Lemma _did_reset_run (self : SuperMarioBrosEnv) (t : Z) :
  Decoder._time (ram self) = Some t ->
  _did_reset self
  = Ok tt (set_last_frame_y_position (Decoder._y_position (ram self))
             (set_last_frame_x_position (Decoder._x_position (ram self))
                (set_time_last t self))).
Proof.
  intros Ht. unfold _did_reset.
  rewrite (bind_run _ _ _ _ _ (read_int_Some _ _ _ Ht)).
  reflexivity.
Qed.

(** X10.  [_did_reset] leaves the emulator and the target alone and sets
    the episode context to the current time and position, so that right
    after it the x component of the reward and the time penalty are 0 and
    the info record reports zero speed in both directions. *)
Theorem did_reset_baseline (self : SuperMarioBrosEnv) :
  exists t after info,
    Decoder._time (ram self) = Some t /\
    _did_reset self = Ok tt after /\
    emulator after = emulator self /\
    target_config after = target_config self /\
    episode_context after
    = (t, Decoder._x_position (ram self), Decoder._y_position (ram self)) /\
    _x_reward after = Ok 0 after /\
    _time_penalty after = Ok 0 after /\
    _get_info after = Ok info after /\
    lookup "x_speed" info = Some (VInt 0) /\
    lookup "y_speed" info = Some (VInt 0).
Proof.
  destruct (_time_total (ram self)) as [t Ht].
  set (after := set_last_frame_y_position (Decoder._y_position (ram self))
                  (set_last_frame_x_position (Decoder._x_position (ram self))
                     (set_time_last t self))).
  destruct (_get_info_run after) as (coins & score & time & _ & _ & _ & Hinfo).
  exists t, after. eexists.
  split; [exact Ht |]. split; [apply (_did_reset_run self t Ht) |].
  split; [reflexivity |]. split; [reflexivity |]. split; [reflexivity |].
  split; [| split; [| split; [exact Hinfo |]]].
  - rewrite (_x_reward_run after). cbv zeta.
    cbn [ram last_frame_x_position after set_last_frame_y_position
           set_last_frame_x_position set_time_last].
    now rewrite Z.sub_diag.
  - rewrite (_time_penalty_run after t Ht).
    cbn [_time_last after set_last_frame_y_position
           set_last_frame_x_position set_time_last].
    rewrite Z.sub_diag. reflexivity.
  - cbn [ram last_frame_x_position last_frame_y_position after
           set_last_frame_y_position set_last_frame_x_position set_time_last].
    rewrite !Z.sub_diag. split; reflexivity.
Qed.

(** X11.  After [_will_reset] the time penalty is 0 whatever the clock
    reads, because the decoded time is never negative: the clock jumping
    up across a reset costs nothing. *)
Theorem will_reset_time_penalty (self : SuperMarioBrosEnv) :
  exists t,
    Decoder._time (ram self) = Some t /\
    (_will_reset ;; _time_penalty) self = Ok 0 (set_time_last t self).
Proof.
  destruct (_time_total (ram self)) as [t Ht].
  exists t. split; [exact Ht |].
  pose proof (int_nonneg _ _ Ht) as Hpos.
  unfold _will_reset.
  erewrite bind_run by reflexivity.
  rewrite (_time_penalty_run (set_time_last 0 self) t Ht).
  cbn [_time_last set_time_last]. rewrite Z.sub_0_r.
  destruct (Z.gtb_spec t 0); [reflexivity |].
  replace t with 0 by lia. reflexivity.
Qed.

End InfoReset.

(** ** RAM hacks *)

Section Hacks.

Context {nes_py : NESEnv}.

(** X12.  [_skip_change_area] touches no cell but the area-change timer
    at 0x06DE and nothing outside RAM; afterwards the timer is never
    strictly between 1 and 255: it is 1 if it was, and as before
    otherwise.  Running it a second time changes nothing. *)
Theorem skip_change_area_collapses (self : SuperMarioBrosEnv) :
  exists after,
    _skip_change_area self = Ok tt after /\
    machine after = machine self /\
    episode_context after = episode_context self /\
    target_config after = target_config self /\
    (forall a, a <> 0x06DE%N -> ram after a = ram self a) /\
    ~ (1 < ram after 0x06DE < 255)%N /\
    ((1 < ram self 0x06DE < 255)%N -> ram after 0x06DE%N = 1%N) /\
    (~ (1 < ram self 0x06DE < 255)%N -> after = self) /\
    _skip_change_area after = Ok tt after.
Proof.
  unfold _skip_change_area, bind, read, gets.
  destruct (N.ltb_spec 1 (ram self 0x06DE%N)) as [H1 | H1];
    destruct (N.ltb_spec (ram self 0x06DE%N) 255) as [H2 | H2];
    cbn [andb].
  1:{ eexists. split; [reflexivity |].
      cbn [ram machine set_ram ram_set].
      repeat split; try reflexivity.
      - intros a Ha. unfold ram_set.
        destruct (N.eqb_spec a 0x06DE); [contradiction | reflexivity].
      - unfold ram_set. cbn. lia.
      - intros H. exfalso. apply H. lia. }
  all: exists self; split; [reflexivity |];
    repeat split; try reflexivity; try lia;
    destruct (N.ltb_spec 1 (ram self 0x06DE%N));
    destruct (N.ltb_spec (ram self 0x06DE%N) 255);
    cbn [andb]; try lia; reflexivity.
Qed.

Lemma uint8_of_byte (z : Z) : 0 <= z < 256 -> Z.of_N (uint8 z) = z.
Proof.
  intros H. unfold uint8. rewrite Z.mod_small by lia. lia.
Qed.

(** X13.  With a complete target whose parts lie in 1..256,
    [_write_stage] makes the decoded world and stage equal to the target
    and stores the area, changes no RAM cell besides 0x075F, 0x075C and
    0x0760, and leaves the rest of the object alone. *)
Theorem write_stage_round_trip (self : SuperMarioBrosEnv) (w s a : Z) :
  _target_world self = Some w ->
  _target_stage self = Some s ->
  _target_area self = Some a ->
  1 <= w <= 256 -> 1 <= s <= 256 -> 1 <= a <= 256 ->
  exists after,
    _write_stage self = Ok tt after /\
    Decoder._world (ram after) = w /\
    Decoder._stage (ram after) = s /\
    Z.of_N (ram after 0x0760%N) + 1 = a /\
    (forall c, c <> 0x075F%N -> c <> 0x075C%N -> c <> 0x0760%N ->
       ram after c = ram self c) /\
    machine after = machine self /\
    episode_context after = episode_context self /\
    target_config after = target_config self.
Proof.
  intros Hw Hs Ha Rw Rs Ra.
  unfold _write_stage, bind, gets. rewrite Hw, Hs, Ha.
  eexists. split; [reflexivity |].
  unfold Decoder._world, Decoder._stage.
  cbn [ram machine set_ram].
  split; [| split; [| split; [| split]]].
  - unfold ram_set. cbn. rewrite uint8_of_byte by lia. lia.
  - unfold ram_set. cbn. rewrite uint8_of_byte by lia. lia.
  - unfold ram_set. cbn. rewrite uint8_of_byte by lia. lia.
  - intros c H1 H2 H3. unfold ram_set.
    destruct (N.eqb_spec c 0x0760); [contradiction |].
    destruct (N.eqb_spec c 0x075C); [contradiction |].
    destruct (N.eqb_spec c 0x075F); [contradiction | reflexivity].
  - repeat split.
Qed.

(** X14.  [_write_stage] writes nothing unless world, stage and area are
    all configured, also when [is_single_stage_env] holds because world
    and area are. *)
Theorem write_stage_needs_all_three (self : SuperMarioBrosEnv) :
  _target_world self = None \/ _target_stage self = None \/
  _target_area self = None ->
  _write_stage self = Ok tt self.
Proof.
  intros H. unfold _write_stage, bind, gets.
  destruct (_target_world self), (_target_stage self), (_target_area self);
    try reflexivity.
  destruct H as [H | [H | H]]; discriminate.
Qed.

End Hacks.

Lemma write_stage_round_trip_3_2 :
  exists after,
    _write_stage Patching.target_3_2 = Ok tt after /\
    Decoder._world (ram after) = 3 /\ Decoder._stage (ram after) = 2.
Proof.
  destruct (write_stage_round_trip Patching.target_3_2 3 2 2)
    as (after & Hrun & Hw & Hs & _);
    try reflexivity; try (vm_compute; split; discriminate).
  exists after. split; [exact Hrun |]. split; [exact Hw | exact Hs].
Defined.

Lemma write_stage_needs_all_three_stage_missing :
  is_single_stage_env Patching.stage_missing
  = Ok true Patching.stage_missing /\
  _write_stage Patching.stage_missing = Ok tt Patching.stage_missing.
Proof.
  split; [reflexivity |].
  apply (write_stage_needs_all_three Patching.stage_missing).
  right. left. reflexivity.
Defined.

(** ** Loops whose test reads and whose body is a function of the object *)

Section Loops.

Context {nes_py : NESEnv}.

Variable cond : M bool.
Variable body : M unit.
Variable test : SuperMarioBrosEnv -> bool.
Variable round : SuperMarioBrosEnv -> SuperMarioBrosEnv.

Hypothesis cond_run : forall self, cond self = Ok (test self) self.
Hypothesis body_run : forall self, body self = Ok tt (round self).

(** The loop returns after [k] rounds when the test first fails there
    and the fuel exceeds [k]. *)
Lemma while_rounds (k : nat) :
  forall fuel self,
    (forall j, (j < k)%nat -> test (Nat.iter j round self) = true) ->
    test (Nat.iter k round self) = false ->
    (k < fuel)%nat ->
    while fuel cond body self = Ok tt (Nat.iter k round self).
Proof.
  induction k as [| k IH]; intros fuel self Htrue Hfalse Hfuel;
    (destruct fuel as [| fuel]; [lia |]).
  - apply while_exit. rewrite cond_run.
    change (test self = false) in Hfalse. now rewrite Hfalse.
  - erewrite while_continue.
    2:{ rewrite cond_run.
        assert (H0 : test (Nat.iter 0 round self) = true)
          by (apply Htrue; lia).
        change (test self = true) in H0. now rewrite H0. }
    rewrite (bind_run _ _ _ _ _ (body_run self)).
    rewrite Nat.iter_succ_r. apply IH.
    + intros j Hj. rewrite <- Nat.iter_succ_r. apply Htrue. lia.
    + now rewrite <- Nat.iter_succ_r.
    + lia.
Qed.

(** When the loop returns, it has made some number of rounds, the test
    held before each and fails at the end. *)
Lemma while_returned (fuel : nat) :
  forall self final,
    while fuel cond body self = Ok tt final ->
    exists k,
      (k < fuel)%nat /\
      final = Nat.iter k round self /\
      (forall j, (j < k)%nat -> test (Nat.iter j round self) = true) /\
      test final = false.
Proof.
  induction fuel as [| fuel IH]; intros self final H; [discriminate |].
  destruct (test self) eqn:E.
  - erewrite while_continue in H by (rewrite cond_run, E; reflexivity).
    rewrite (bind_run _ _ _ _ _ (body_run self)) in H.
    apply IH in H as (k & Hk & Hfinal & Htrue & Hfalse).
    exists (S k). split; [lia |]. split; [| split; [| exact Hfalse]].
    + now rewrite Nat.iter_succ_r.
    + intros [| j] Hj; [exact E |].
      rewrite Nat.iter_succ_r. apply Htrue. lia.
  - erewrite while_exit in H by (rewrite cond_run, E; reflexivity).
    inversion H; subst. exists 0%nat.
    split; [lia |]. split; [reflexivity |]. split; [| exact E].
    intros j Hj. lia.
Qed.

End Loops.

Section LoopInvariant.

Context {nes_py : NESEnv}.

(** A property kept by each round holds after any number of rounds. *)
Lemma iter_invariant (P : SuperMarioBrosEnv -> Prop)
    (round : SuperMarioBrosEnv -> SuperMarioBrosEnv) :
  (forall self, P self -> P (round self)) ->
  forall k self, P self -> P (Nat.iter k round self).
Proof.
  intros Hround k self H. induction k as [| k IH]; [exact H |].
  cbn [Nat.iter]. apply Hround, IH.
Qed.

End LoopInvariant.

(** ** Skipping occupied states and the end of a world *)

Section SkipLoops.

Context {nes_py : NESEnv}.

Lemma time_or_zero_time (self : SuperMarioBrosEnv) :
  Decoder._time (ram self) = Some (time_or_zero self).
Proof.
  unfold time_or_zero. destruct (_time_total (ram self)) as [t Ht].
  now rewrite Ht.
Qed.

Lemma occupied_cond_run (self : SuperMarioBrosEnv) :
  (busy <- read Decoder._is_busy ;;
   if busy then ret true else read Decoder._is_world_over) self
  = Ok (occupied self) self.
Proof.
  unfold occupied, bind, read, gets, ret.
  now destruct (Decoder._is_busy (ram self)).
Qed.

Lemma occupied_body_run (self : SuperMarioBrosEnv) :
  (_runout_prelevel_timer ;; _frame_advance 0%N) self
  = Ok tt (occupied_round self).
Proof.
  unfold _runout_prelevel_timer, poke.
  erewrite bind_run by reflexivity.
  rewrite _frame_advance_run. reflexivity.
Qed.

Lemma noop_body_run (self : SuperMarioBrosEnv) :
  _frame_advance 0%N self = Ok tt (noop_frame self).
Proof. apply _frame_advance_run. Qed.

Lemma same_time_cond_run (t0 : Z) (self : SuperMarioBrosEnv) :
  (t <- read_int Decoder._time ;; ret (Z.eqb t t0)) self
  = Ok (Z.eqb (time_or_zero self) t0) self.
Proof.
  now rewrite (bind_run _ _ _ _ _
                 (read_int_Some _ _ _ (time_or_zero_time self))).
Qed.

Lemma occupied_round_keeps (self : SuperMarioBrosEnv) :
  episode_context (occupied_round self) = episode_context self /\
  target_config (occupied_round self) = target_config self.
Proof. split; reflexivity. Qed.

Lemma noop_frame_keeps (self : SuperMarioBrosEnv) :
  episode_context (noop_frame self) = episode_context self /\
  target_config (noop_frame self) = target_config self.
Proof. split; reflexivity. Qed.

Lemma rounds_keep (round : SuperMarioBrosEnv -> SuperMarioBrosEnv) :
  (forall self,
     episode_context (round self) = episode_context self /\
     target_config (round self) = target_config self) ->
  forall k self,
    episode_context (Nat.iter k round self) = episode_context self /\
    target_config (Nat.iter k round self) = target_config self.
Proof.
  intros Hround k self.
  apply (iter_invariant
           (fun s => episode_context s = episode_context self /\
                     target_config s = target_config self) round).
  - intros s [He Ht]. destruct (Hround s) as [He' Ht'].
    split; congruence.
  - split; reflexivity.
Qed.

Lemma skip_occupied_states_returned_not_occupied
    (fuel : nat) (self final : SuperMarioBrosEnv) :
  _skip_occupied_states fuel self = Ok tt final ->
  Decoder._is_busy (ram final) = false /\
  Decoder._is_world_over (ram final) = false.
Proof.
  unfold _skip_occupied_states. intros H.
  apply (while_returned _ _ occupied occupied_round
           occupied_cond_run occupied_body_run) in H
    as (k & _ & _ & _ & Hfalse).
  unfold occupied in Hfalse. now apply orb_false_iff in Hfalse.
Qed.

(** X15.  [_skip_occupied_states] returns after exactly [k] rounds (zero
    the pre-level timer, advance a no-op frame) when Mario is busy or the
    world is over before each of them and neither holds after the last,
    given fuel for more than [k] rounds. *)
Theorem skip_occupied_states_rounds
    (fuel k : nat) (self : SuperMarioBrosEnv) :
  (forall j, (j < k)%nat ->
     occupied (Nat.iter j occupied_round self) = true) ->
  occupied (Nat.iter k occupied_round self) = false ->
  (k < fuel)%nat ->
  _skip_occupied_states fuel self = Ok tt (Nat.iter k occupied_round self).
Proof.
  intros Htrue Hfalse Hfuel. unfold _skip_occupied_states.
  apply (while_rounds _ _ occupied occupied_round
           occupied_cond_run occupied_body_run k); assumption.
Qed.

(** X16.  Whenever [_skip_occupied_states] returns, Mario is not busy
    and the world is not over, the episode context and the target are as
    before, and nothing at all has changed if neither held on entry. *)
Theorem skip_occupied_states_returned
    (fuel : nat) (self final : SuperMarioBrosEnv) :
  _skip_occupied_states fuel self = Ok tt final ->
  Decoder._is_busy (ram final) = false /\
  Decoder._is_world_over (ram final) = false /\
  episode_context final = episode_context self /\
  target_config final = target_config self /\
  (occupied self = false -> final = self) /\
  exists k, (k < fuel)%nat /\ final = Nat.iter k occupied_round self.
Proof.
  unfold _skip_occupied_states. intros H.
  apply (while_returned _ _ occupied occupied_round
           occupied_cond_run occupied_body_run) in H
    as (k & Hk & Hfinal & Htrue & Hfalse).
  unfold occupied in Hfalse. apply orb_false_iff in Hfalse as [Hb Hw].
  destruct (rounds_keep occupied_round occupied_round_keeps k self)
    as [He Ht].
  subst final.
  split; [exact Hb |]. split; [exact Hw |].
  split; [exact He |]. split; [exact Ht |]. split; [| eauto].
  intros Hfree. destruct k as [| k]; [reflexivity |].
  assert (H0 : occupied (Nat.iter 0 occupied_round self) = true)
    by (apply Htrue; lia).
  change (occupied self = true) in H0. congruence.
Qed.

(** X17.  At the end of a world [_skip_end_of_world] returns after
    exactly [k] no-op frames, [k] being the first count at which the
    decoded time differs from the time on entry, given fuel for more than
    [k] frames; at least one frame is advanced. *)
Theorem skip_end_of_world_rounds
    (fuel k : nat) (t0 : Z) (self : SuperMarioBrosEnv) :
  Decoder._is_world_over (ram self) = true ->
  Decoder._time (ram self) = Some t0 ->
  (forall j, (j < k)%nat ->
     Decoder._time (ram (Nat.iter j noop_frame self)) = Some t0) ->
  Decoder._time (ram (Nat.iter k noop_frame self)) <> Some t0 ->
  (k < fuel)%nat ->
  _skip_end_of_world fuel self = Ok tt (Nat.iter k noop_frame self) /\
  (1 <= k)%nat.
Proof.
  intros Hover Ht0 Hsame Hdiff Hfuel.
  split.
  - unfold _skip_end_of_world, read.
    erewrite bind_run by reflexivity. rewrite Hover.
    rewrite (bind_run _ _ _ _ _ (read_int_Some _ _ _ Ht0)).
    apply (while_rounds _ _ (fun s => Z.eqb (time_or_zero s) t0) noop_frame
             (same_time_cond_run t0) noop_body_run k).
    + intros j Hj. apply Z.eqb_eq.
      pose proof (Hsame j Hj) as E.
      rewrite time_or_zero_time in E. congruence.
    + apply Z.eqb_neq. intros E. apply Hdiff.
      now rewrite time_or_zero_time, E.
    + exact Hfuel.
  - destruct k as [| k]; [| lia].
    exfalso. apply Hdiff. exact Ht0.
Qed.

(** X18.  Whenever [_skip_end_of_world] returns: if the world was not
    over nothing has changed; if it was, only no-op frames were advanced,
    at least one, and the decoded time differs from the time on entry.
    The episode context and the target are as before. *)
Theorem skip_end_of_world_returned
    (fuel : nat) (self final : SuperMarioBrosEnv) :
  _skip_end_of_world fuel self = Ok tt final ->
  (Decoder._is_world_over (ram self) = false -> final = self) /\
  (Decoder._is_world_over (ram self) = true ->
     Decoder._time (ram final) <> Decoder._time (ram self) /\
     exists k, (1 <= k < fuel)%nat /\ final = Nat.iter k noop_frame self) /\
  episode_context final = episode_context self /\
  target_config final = target_config self.
Proof.
  unfold _skip_end_of_world, read. intros H.
  erewrite bind_run in H by reflexivity.
  destruct (Decoder._is_world_over (ram self)) eqn:Hover.
  - rewrite (bind_run _ _ _ _ _
               (read_int_Some _ _ _ (time_or_zero_time self))) in H.
    apply (while_returned _ _
             (fun s => Z.eqb (time_or_zero s) (time_or_zero self)) noop_frame
             (same_time_cond_run (time_or_zero self)) noop_body_run) in H
      as (k & Hk & Hfinal & Htrue & Hfalse).
    apply Z.eqb_neq in Hfalse.
    destruct (rounds_keep noop_frame noop_frame_keeps k self) as [He Ht].
    split; [discriminate |]. split; [| subst final; split; assumption].
    intros _. split.
    + rewrite !time_or_zero_time. congruence.
    + exists k. split; [| exact Hfinal].
      destruct k as [| k]; [| lia].
      subst final. exfalso. apply Hfalse. reflexivity.
  - inversion H; subst.
    split; [reflexivity |]. split; [discriminate |]. split; reflexivity.
Qed.

End SkipLoops.

Lemma skip_occupied_states_rounds_entering_area :
  exists final,
    _skip_occupied_states 3 Patching.entering_area = Ok tt final /\
    Decoder._player_state (ram final) = 0x08%N /\
    ram final 0x07A0%N = 0%N /\
    Patching.presses (machine final) = [0; 0]%N.
Proof.
  eexists. split.
  - apply (skip_occupied_states_rounds 3 2 Patching.entering_area).
    + intros j Hj.
      destruct j as [| [| j]]; [vm_compute; reflexivity .. | lia].
    + vm_compute. reflexivity.
    + lia.
  - vm_compute. repeat split.
Defined.

Lemma skip_occupied_states_returned_entering_area :
  exists final,
    _skip_occupied_states 3 Patching.entering_area = Ok tt final /\
    Decoder._is_busy (ram final) = false /\
    episode_context final = (400, 40, 79).
Proof.
  eexists.
  assert (Hrun : _skip_occupied_states 3 Patching.entering_area = Ok tt _)
    by (vm_compute; reflexivity).
  destruct (skip_occupied_states_returned _ _ _ Hrun)
    as (Hb & _ & He & _).
  split; [exact Hrun |]. split; [exact Hb | exact He].
Defined.

Lemma skip_end_of_world_rounds_world_over :
  exists final,
    _skip_end_of_world 4 Patching.world_over = Ok tt final /\
    Decoder._time (ram final) = Some 400 /\
    Patching.presses (machine final) = [0; 0; 0]%N.
Proof.
  eexists. split.
  - apply (skip_end_of_world_rounds 4 3 250 Patching.world_over).
    + vm_compute. reflexivity.
    + vm_compute. reflexivity.
    + intros j Hj.
      destruct j as [| [| [| j]]]; [vm_compute; reflexivity .. | lia].
    + vm_compute. discriminate.
    + lia.
  - vm_compute. repeat split.
Defined.

Lemma skip_end_of_world_returned_world_over :
  exists final,
    _skip_end_of_world 4 Patching.world_over = Ok tt final /\
    Decoder._time (ram final) <> Some 250.
Proof.
  eexists.
  assert (Hrun : _skip_end_of_world 4 Patching.world_over = Ok tt _)
    by (vm_compute; reflexivity).
  destruct (skip_end_of_world_returned _ _ _ Hrun) as (_ & Hover & _).
  split; [exact Hrun |].
  apply Hover. vm_compute. reflexivity.
Defined.

(** ** Post-processing of a step, start screen, [step] *)

Section PostProcessing.

Context {nes_py : NESEnv}.
Context {B : Type} (f : SuperMarioBrosEnv -> B).

Hypothesis f_set_ram : forall r self, f (set_ram r self) = f self.
Hypothesis f_set_machine : forall c self, f (set_machine c self) = f self.

Lemma preserves_poke (a : N) (v : byte) : preserves f (poke a v).
Proof. apply preserves_modify. intros self. apply f_set_ram. Qed.

Lemma preserves_frame_advance (action : byte) :
  preserves f (_frame_advance action).
Proof.
  intros self a self' H. rewrite _frame_advance_run in H.
  inversion H. unfold set_emulator.
  now rewrite f_set_machine, f_set_ram.
Qed.

Hint Resolve preserves_poke preserves_frame_advance : frame.

(** The RAM hacks and skips change the emulator only. *)
Lemma preserves_did_step (fuel : nat) (will_reset : bool) :
  preserves f (_did_step fuel will_reset).
Proof.
  unfold _did_step, _kill_mario, _skip_end_of_world, _skip_change_area,
    _skip_occupied_states, _runout_prelevel_timer, is_single_stage_env.
  frame_steps.
Qed.

Lemma preserves_start_phase (fuel : nat) : preserves f (start_phase fuel).
Proof.
  unfold start_phase, press_start_until_started, _runout_prelevel_timer,
    is_single_stage_env.
  frame_steps.
Qed.

End PostProcessing.

Section StepAndStart.

Context {nes_py : NESEnv}.

(** X19.  Whenever [_did_step] returns, the episode context and the
    target are as before; with a reset pending nothing at all has
    changed, and otherwise Mario is not busy and the world is not
    over. *)
Theorem did_step_returned
    (fuel : nat) (will_reset : bool) (self final : SuperMarioBrosEnv) :
  _did_step fuel will_reset self = Ok tt final ->
  episode_context final = episode_context self /\
  target_config final = target_config self /\
  (will_reset = true -> final = self) /\
  (will_reset = false ->
     Decoder._is_busy (ram final) = false /\
     Decoder._is_world_over (ram final) = false).
Proof.
  intros H.
  split; [| split; [| split]].
  - apply (preserves_did_step episode_context) in H;
      [exact H | reflexivity | reflexivity].
  - apply (preserves_did_step target_config) in H;
      [exact H | reflexivity | reflexivity].
  - intros ->. now inversion H.
  - intros ->. unfold _did_step in H.
    apply bind_Ok in H as (dying & s1 & _ & H).
    apply bind_Ok in H as ([] & s2 & _ & H).
    apply bind_Ok in H as (single & s3 & _ & H).
    apply bind_Ok in H as ([] & s4 & _ & H).
    apply bind_Ok in H as ([] & s5 & _ & H).
    apply skip_occupied_states_returned_not_occupied in H. exact H.
Qed.

Lemma idle_cond_run (self : SuperMarioBrosEnv) :
  (t <- read_int Decoder._time ;;
   last <- gets _time_last ;;
   ret (Z.geb t last)) self
  = Ok (Z.geb (time_or_zero self) (_time_last self)) self.
Proof. apply idle_condition, time_or_zero_time. Qed.

Lemma idle_body_run (self : SuperMarioBrosEnv) :
  (t <- read_int Decoder._time ;;
   modify (set_time_last t) ;;
   _frame_advance 8%N ;;
   _frame_advance 0%N) self
  = Ok tt (idle_round self).
Proof.
  unfold idle_round. rewrite (time_or_zero_time self).
  rewrite (bind_run _ _ _ _ _
             (read_int_Some _ _ _ (time_or_zero_time self))).
  erewrite bind_run by reflexivity.
  exact (press_release_run (set_time_last (time_or_zero self) self)).
Qed.

Lemma idle_round_time_last (self : SuperMarioBrosEnv) :
  _time_last (idle_round self) = time_or_zero self.
Proof.
  unfold idle_round. rewrite (time_or_zero_time self). reflexivity.
Qed.

Lemma idle_round_keeps (self : SuperMarioBrosEnv) :
  last_frame_position (idle_round self) = last_frame_position self /\
  target_config (idle_round self) = target_config self.
Proof.
  unfold idle_round. rewrite (time_or_zero_time self). split; reflexivity.
Qed.

(** X20.  Whenever [_skip_start_screen] returns, at least one idle round
    has been made, the stored previous time is positive and strictly
    above the decoded time, so that a time penalty evaluated next is
    negative; the previous-frame position and the target are as
    before. *)
Theorem skip_start_screen_returned
    (fuel : nat) (self final : SuperMarioBrosEnv) :
  _skip_start_screen fuel self = Ok tt final ->
  exists t,
    Decoder._time (ram final) = Some t /\
    0 <= t < _time_last final /\
    _time_penalty final = Ok (t - _time_last final) (set_time_last t final) /\
    last_frame_position final = last_frame_position self /\
    target_config final = target_config self /\
    exists mid k,
      start_phase fuel self = Ok tt mid /\
      (1 <= k < fuel)%nat /\
      final = Nat.iter k idle_round (set_time_last (time_or_zero mid) mid).
Proof.
  intros H. rewrite _skip_start_screen_split in H.
  apply bind_Ok in H as ([] & mid & Hstart & H).
  rewrite (bind_run _ _ _ _ _
             (read_int_Some _ _ _ (time_or_zero_time mid))) in H.
  erewrite bind_run in H by reflexivity.
  set (s1 := set_time_last (time_or_zero mid) mid) in H.
  unfold idle_after_start in H.
  apply (while_returned _ _
           (fun s => Z.geb (time_or_zero s) (_time_last s)) idle_round
           idle_cond_run idle_body_run) in H
    as (k & Hk & Hfinal & Htrue & Hfalse).
  assert (Hmid : 0 < time_or_zero mid).
  { pose proof Hstart as Hs. unfold start_phase in Hs.
    apply bind_Ok in Hs as ([] & a1 & _ & Hs).
    apply bind_Ok in Hs as ([] & a2 & _ & Hs).
    apply press_start_until_started_exit in Hs as (t & Ht & Hne).
    pose proof (int_nonneg _ _ Ht) as Hpos.
    rewrite time_or_zero_time in Ht. inversion Ht. lia. }
  assert (Hk1 : (1 <= k)%nat).
  { destruct k as [| k]; [| lia]. subst final.
    change (Z.geb (time_or_zero s1) (_time_last s1) = false) in Hfalse.
    destruct (Z.geb_spec (time_or_zero s1) (_time_last s1)) as [_ | Hlt];
      [discriminate |].
    unfold s1 in Hlt. cbn [_time_last set_time_last] in Hlt.
    change (time_or_zero (set_time_last (time_or_zero mid) mid))
      with (time_or_zero mid) in Hlt. lia. }
  assert (Hlast : forall j, (j <= k)%nat ->
                    0 < _time_last (Nat.iter j idle_round s1)).
  { induction j as [| j IH]; intros Hj.
    - exact Hmid.
    - rewrite Nat.iter_succ, idle_round_time_last.
      pose proof (Htrue j ltac:(lia)) as Hge. cbv beta in Hge.
      destruct (Z.geb_spec (time_or_zero (Nat.iter j idle_round s1))
                  (_time_last (Nat.iter j idle_round s1)));
        [| discriminate].
      specialize (IH ltac:(lia)). lia. }
  assert (Hkeep : last_frame_position final = last_frame_position s1 /\
                  target_config final = target_config s1).
  { subst final.
    apply (iter_invariant
             (fun s => last_frame_position s = last_frame_position s1 /\
                       target_config s = target_config s1) idle_round).
    - intros s [Hp Ht]. destruct (idle_round_keeps s) as [Hp' Ht'].
      split; congruence.
    - split; reflexivity. }
  destruct Hkeep as [Hpos Htarget].
  pose proof (time_or_zero_time final) as Htime.
  pose proof (int_nonneg _ _ Htime) as Hnonneg.
  destruct (Z.geb_spec (time_or_zero final) (_time_last final)) as [| Hlt];
    [discriminate |].
  exists (time_or_zero final).
  split; [exact Htime |]. split; [lia |]. split; [| split; [| split]].
  - rewrite (_time_penalty_run final _ Htime).
    destruct (Z.gtb_spec (time_or_zero final - _time_last final) 0);
      [lia | reflexivity].
  - rewrite Hpos. change (last_frame_position s1)
      with (last_frame_position mid).
    apply (preserves_start_phase last_frame_position) in Hstart;
      [exact Hstart | reflexivity | reflexivity].
  - rewrite Htarget. change (target_config s1) with (target_config mid).
    apply (preserves_start_phase target_config) in Hstart;
      [exact Hstart | reflexivity | reflexivity].
  - exists mid, k. split; [exact Hstart |]. split; [lia | exact Hfinal].
Qed.

(** X21.  After a completed [step] the previous-frame trackers hold the
    position decoded when [step] was entered, and the target is as
    before. *)
Theorem step_records_position
    (fuel : nat) (will_reset : bool) (action : byte)
    (self after : SuperMarioBrosEnv)
    (reward : Z) (terminated : bool) (info : info_dict) :
  step fuel will_reset action self = Ok (reward, terminated, info) after ->
  last_frame_x_position after = Decoder._x_position (ram self) /\
  last_frame_y_position after = Decoder._y_position (ram self) /\
  target_config after = target_config self.
Proof.
  unfold step. intros H.
  apply bind_Ok in H as (x & s1 & Hx & H). inversion Hx; subst x s1; clear Hx.
  apply bind_Ok in H as ([] & s2 & Hmx & H). inversion Hmx; subst s2; clear Hmx.
  apply bind_Ok in H as (y & s3 & Hy & H). inversion Hy; subst y s3; clear Hy.
  apply bind_Ok in H as ([] & s4 & Hmy & H). inversion Hmy; subst s4; clear Hmy.
  set (entered := set_last_frame_y_position _ _) in H.
  assert (Hbase : preserves
            (fun s => (last_frame_position s, target_config s))
            (NESEnv_step fuel will_reset action)).
  { unfold NESEnv_step.
    apply preserves_bind;
      [apply preserves_frame_advance; reflexivity | intros _].
    apply preserves_bind;
      [apply preserves_did_step; reflexivity | intros _].
    unfold _get_reward, _x_reward, _time_penalty, _death_penalty,
      _get_terminated, _get_info, is_single_stage_env.
    frame_steps. apply preserves_modify. reflexivity. }
  apply Hbase in H. apply pair_equal_spec in H as [Hp Ht].
  unfold last_frame_position in Hp. apply pair_equal_spec in Hp as [Hx Hy].
  split; [exact Hx |]. split; [exact Hy | exact Ht].
Qed.

End StepAndStart.

Lemma did_step_returned_falling :
  exists final,
    _did_step 2 false Patching.falling = Ok tt final /\
    Decoder._is_busy (ram final) = false /\
    ram final 0x06DE%N = 1%N /\
    episode_context final = (300, 700, -40).
Proof.
  eexists.
  assert (Hrun : _did_step 2 false Patching.falling = Ok tt _)
    by (vm_compute; reflexivity).
  destruct (did_step_returned _ _ _ _ Hrun) as (He & _ & _ & Hfree).
  destruct (Hfree eq_refl) as [Hb _].
  split; [exact Hrun |]. split; [exact Hb |].
  split; [vm_compute; reflexivity | exact He].
Defined.

Lemma skip_start_screen_returned_scripted :
  exists final t,
    _skip_start_screen 3 Scripted.title_screen = Ok tt final /\
    Decoder._time (ram final) = Some t /\
    0 <= t < _time_last final.
Proof.
  eexists.
  assert (Hrun : _skip_start_screen 3 Scripted.title_screen = Ok tt _)
    by (vm_compute; reflexivity).
  destruct (skip_start_screen_returned _ _ _ Hrun) as (t & Ht & Hlt & _).
  exists t. split; [exact Hrun |]. split; [exact Ht | exact Hlt].
Defined.

Lemma step_records_position_scripted :
  exists reward terminated info after,
    step 1 false 128%N Scripted.in_play = Ok (reward, terminated, info) after /\
    last_frame_x_position after = 0 /\
    Decoder._x_position (ram after) = 1.
Proof.
  do 4 eexists.
  assert (Hstep : step 1 false 128%N Scripted.in_play = Ok (_, _, _) _)
    by (vm_compute; reflexivity).
  destruct (step_records_position _ _ _ _ _ _ _ _ Hstep) as (Hx & _ & _).
  split; [exact Hstep |]. split; [exact Hx | vm_compute; reflexivity].
Defined.
